(** * Verification of scripts/convert_notebooks.py

    A shallow embedding of the notebook renderer
    ([extract_html_from_notebook]) and of the heading-hierarchy extractor
    ([html_to_hierarchical_json]) together with the properties of their
    behaviour.

    Python [str] values are modelled as [string]; characters are restricted
    to code points below 256, which is where every character the program
    inspects lives. *)

From Stdlib Require Import Ascii DecimalString DecimalNat.
From stdpp Require Import base option list strings gmap.

Local Open Scope stdpp_scope.
#[local] Set Warnings "-register-all".

(** ** Python string primitives *)

Module Py.

Definition nl : string := String "010"%char "".
Definition tab : string := String "009"%char "".
Definition dquote : ascii := "034"%char.
Definition squote : ascii := "039"%char.

(** [bool(s)] of a string: true when it is not empty. *)
Definition truthy (s : string) : bool :=
  match s with
  | EmptyString => false
  | String _ _ => true
  end.

(** [sep.join(l)]. *)
Fixpoint join (sep : string) (l : list string) : string :=
  match l with
  | [] => ""
  | [x] => x
  | x :: l' => x +:+ sep +:+ join sep l'
  end.

(** [''.join(l)]. *)
Fixpoint concat (l : list string) : string :=
  match l with
  | [] => ""
  | x :: l' => x +:+ concat l'
  end.

(** [s.startswith(p)]. *)
Fixpoint startswith (p s : string) : bool :=
  match p, s with
  | EmptyString, _ => true
  | String a p', String b s' => Ascii.eqb a b && startswith p' s'
  | String _ _, EmptyString => false
  end.

(** [f"{n}"] for a non-negative integer. *)
Definition str_of_nat (n : nat) : string :=
  NilEmpty.string_of_uint (Nat.to_uint n).

(** [str.isspace] on one character (code points below 256). *)
Definition is_space (c : ascii) : bool :=
  let n := nat_of_ascii c in
  ((9 <=? n) && (n <=? 13)) || ((28 <=? n) && (n <=? 32))
  || (n =? 133) || (n =? 160).

(** The line boundaries of [str.splitlines] (code points below 256);
    a carriage return followed by a line feed is one boundary. *)
Definition is_linebreak (c : ascii) : bool :=
  let n := nat_of_ascii c in
  ((10 <=? n) && (n <=? 13)) || ((28 <=? n) && (n <=? 30)) || (n =? 133).

(** [s.splitlines()]: the loop keeps the line under construction in [cur]
    and closes it at every boundary; a last line is produced only when the
    text does not end at a boundary. *)
Fixpoint splitlines_go (cur s : string) : list string :=
  match s with
  | EmptyString => if truthy cur then [cur] else []
  | String c s' =>
      if is_linebreak c then
        cur ::
          match s' with
          | String c' s'' =>
              if Ascii.eqb c "013"%char && Ascii.eqb c' "010"%char
              then splitlines_go "" s''
              else splitlines_go "" s'
          | EmptyString => splitlines_go "" s'
          end
      else splitlines_go (cur +:+ String c "") s'
  end.

Definition splitlines (s : string) : list string := splitlines_go "" s.

Fixpoint lstrip (s : string) : string :=
  match s with
  | EmptyString => ""
  | String c s' => if is_space c then lstrip s' else s
  end.

Fixpoint rstrip (s : string) : string :=
  match s with
  | EmptyString => ""
  | String c s' =>
      let r := rstrip s' in
      if is_space c && negb (truthy r) then "" else String c r
  end.

(** [s.strip()]. *)
Definition strip (s : string) : string := rstrip (lstrip s).

(** [s.split(sep)] for a non-empty [sep]: a left-to-right scan; at a
    position where [sep] starts the piece under construction is closed and
    the scan resumes after the separator ([skip] counts the characters of
    the separator still to pass). *)
Fixpoint split_go (sep : string) (skip : nat) (cur s : string) : list string :=
  match s with
  | EmptyString => [cur]
  | String c s' =>
      match skip with
      | S k => split_go sep k cur s'
      | O =>
          if startswith sep s
          then cur :: split_go sep (String.length sep - 1) "" s'
          else split_go sep 0 (cur +:+ String c "") s'
      end
  end.

Definition split (sep s : string) : list string := split_go sep 0 "" s.

(** [s.count(sub)] for a non-empty [sub]: the number of non-overlapping
    occurrences found by the same left-to-right scan. *)
Fixpoint count_go (sub : string) (skip : nat) (s : string) : nat :=
  match s with
  | EmptyString => 0
  | String c s' =>
      match skip with
      | S k => count_go sub k s'
      | O =>
          if startswith sub s
          then S (count_go sub (String.length sub - 1) s')
          else count_go sub 0 s'
      end
  end.

Definition count (sub s : string) : nat := count_go sub 0 s.

(** [l[-1]] of a list of strings known not to be empty ([split] never
    returns an empty list). *)
Definition last_item (l : list string) : string := List.last l "".

(** [l[0]]. *)
Definition first_item (l : list string) : string := List.hd "" l.

(** [html.escape(s)] with its default [quote=True]: the ampersand is
    replaced first, so the result is a character-wise substitution. *)
Definition escape_char (c : ascii) : string :=
  if Ascii.eqb c "&"%char then "&amp;"
  else if Ascii.eqb c "<"%char then "&lt;"
  else if Ascii.eqb c ">"%char then "&gt;"
  else if Ascii.eqb c dquote then "&quot;"
  else if Ascii.eqb c squote then "&#x27;"
  else String c "".

Fixpoint html_escape (s : string) : string :=
  match s with
  | EmptyString => ""
  | String c s' => escape_char c +:+ html_escape s'
  end.

End Py.

(** ** The renderer: [extract_html_from_notebook] *)

Module Renderer.

(** An output of a code cell, as the renderer reads it: a dictionary of
    which only the keys below are inspected; [None] is an absent key. *)
Record output := {
  output_type : option string;
  name : option string;
  text : option string;
  data : option (gmap string string);
  traceback : option (list string)
}.

(** A cell: [cell_type] and [source] are read with subscription, [outputs]
    with [cell.get("outputs", [])]. *)
Record cell := {
  cell_type : string;
  source : string;
  outputs : option (list output)
}.

(** [notebook["cells"]]. *)
Definition notebook := list cell.

(** The file system as the renderer touches it: the set of paths that
    exist and the log of the operations it performed.  [WriteFile p d]
    stands for writing to [p] the Base64 decoding of the payload [d]
    ([save_plot_as_image]). *)
Inductive fs_event :=
  | MakeDirs (path : string)
  | WriteFile (path : string) (payload : string).

Record filesystem := {
  existing : gset string;
  log : list fs_event
}.

(** The local variables of [extract_html_from_notebook] that survive an
    iteration of its loops, and the file system. *)
Record state := {
  html_output : list string;
  fig_id : nat;
  aggregated_output : string;
  fs : filesystem
}.

Definition init (fs0 : filesystem) : state :=
  {| html_output := []; fig_id := 0; aggregated_output := ""; fs := fs0 |}.

(** [html_output.append(frag)]. *)
Definition emit (frag : string) (st : state) : state :=
  {| html_output := html_output st ++ [frag];
     fig_id := fig_id st;
     aggregated_output := aggregated_output st;
     fs := fs st |}.

Definition set_aggregated (a : string) (st : state) : state :=
  {| html_output := html_output st;
     fig_id := fig_id st;
     aggregated_output := a;
     fs := fs st |}.

Definition set_fig_id (n : nat) (st : state) : state :=
  {| html_output := html_output st;
     fig_id := n;
     aggregated_output := aggregated_output st;
     fs := fs st |}.

Definition set_fs (w : filesystem) (st : state) : state :=
  {| html_output := html_output st;
     fig_id := fig_id st;
     aggregated_output := aggregated_output st;
     fs := w |}.

(** [os.path.sep] and [os.path.join] on a POSIX system. *)
Definition delim : string := "/".

Fixpoint endswith_delim (s : string) : bool :=
  match s with
  | EmptyString => false
  | String c EmptyString => Ascii.eqb c "/"%char
  | String _ s' => endswith_delim s'
  end.

Definition os_path_join (a b : string) : string :=
  if Py.startswith delim b then b
  else if negb (Py.truthy a) || endswith_delim a then a +:+ b
  else a +:+ delim +:+ b.

Definition os_path_exists (w : filesystem) (p : string) : bool :=
  bool_decide (p ∈ existing w).

(** [os.makedirs(p)], called only when [p] does not exist; the parents it
    may create on the way are not tracked. *)
Definition os_makedirs (p : string) (w : filesystem) : filesystem :=
  {| existing := {[p]} ∪ existing w; log := log w ++ [MakeDirs p] |}.

(** [save_plot_as_image(img_data, img_filename, output_dir)], for a payload
    that [base64.b64decode] accepts ([Base64.b64decode_accepts] below); for
    another payload line 29 raises once the file is open, which the module
    [Checked] below adds to this path. *)
Definition save_plot_as_image (img_data img_filename output_dir : string)
    (w : filesystem) : filesystem :=
  let img_path := os_path_join output_dir img_filename in
  {| existing := {[img_path]} ∪ existing w;
     log := log w ++ [WriteFile img_path img_data] |}.

(** The fragments. *)
Definition code_block (src : string) : string :=
  "<div class='code-cell'>"
  +:+ Py.nl +:+ Py.tab +:+ "<code class='language-python'>"
  +:+ Py.nl +:+ Py.tab +:+ Py.tab +:+ src
  +:+ Py.nl +:+ Py.tab +:+ "</code>"
  +:+ Py.nl +:+ "</div>".

Definition out_block (agg : string) : string :=
  "<div class='output-cell'>"
  +:+ "<div class='output-label'>"
  +:+ Py.nl +:+ Py.tab +:+ "Out:"
  +:+ Py.nl +:+ "</div>"
  +:+ Py.nl +:+ Py.tab +:+ "<div class='output-code'>"
  +:+ agg
  +:+ Py.nl +:+ Py.tab +:+ "</div>"
  +:+ Py.nl +:+ "</div>".

Definition base64_block (img_data : string) : string :=
  "<div class='output-cell'>"
  +:+ Py.nl +:+ Py.tab +:+ "<img src='data:image/png;base64,"
  +:+ img_data +:+ "'/>"
  +:+ Py.nl +:+ "</div>".

Definition img_block (output_folder img_filename : string) : string :=
  "<div class='output-cell'>"
  +:+ Py.nl +:+ Py.tab +:+ "<img src='" +:+ output_folder +:+ delim
  +:+ img_filename +:+ "'/>"
  +:+ Py.nl +:+ "</div>".

Definition error_block (error_message : string) : string :=
  "<div class='output-cell error'>"
  +:+ Py.nl +:+ Py.tab +:+ "<pre>"
  +:+ Py.nl +:+ Py.tab +:+ Py.tab +:+ error_message
  +:+ Py.nl +:+ Py.tab +:+ "</pre>"
  +:+ Py.nl +:+ "</div>".

Definition heading_block (header_level : nat) (content : string) : string :=
  "<div class='markdown-cell'>"
  +:+ Py.nl +:+ Py.tab +:+ "<h" +:+ Py.str_of_nat header_level +:+ ">"
  +:+ Py.nl +:+ Py.tab +:+ Py.tab +:+ content
  +:+ Py.nl +:+ Py.tab +:+ "</h" +:+ Py.str_of_nat header_level +:+ ">"
  +:+ Py.nl +:+ "</div>".

Definition markdown_block (content : string) : string :=
  "<div class='markdown-cell'>"
  +:+ Py.nl +:+ Py.tab +:+ content
  +:+ Py.nl +:+ "</div>".

(** [output.get("data", {})] looked up at a MIME type. *)
Definition data_get (o : output) (mime : string) : option string :=
  match data o with
  | Some d => d !! mime
  | None => None
  end.

Definition is_stdout_stream (o : output) : bool :=
  bool_decide (output_type o = Some "stream")
  && bool_decide (name o = Some "stdout").

Definition is_error (o : output) : bool :=
  bool_decide (output_type o = Some "error").

(** [fig_0{fig_id}.png] or [fig_{fig_id}.png]. *)
Definition img_filename_of (fig : nat) : string :=
  if fig <=? 10 then "fig_0" +:+ Py.str_of_nat fig +:+ ".png"
  else "fig_" +:+ Py.str_of_nat fig +:+ ".png".

Definition output_folder_of (filename : string) : string :=
  "output_nb_" +:+ Py.first_item (Py.split ".ipynb" filename).

(** The block the source writes twice: when text is pending, emit it as an
    "Out:" block and reset the buffer. *)
Definition flush_aggregated (st : state) : state :=
  if Py.truthy (aggregated_output st)
  then set_aggregated "" (emit (out_block (aggregated_output st)) st)
  else st.

Section Render.

Variables (input_dir filename : string) (use_base64 : bool).

(** The four consecutive [if] statements of the loop over outputs
    (lines 92 to 176); an output can satisfy several of them.  Lines 94 to
    101: plain text. *)
Definition handle_plain (o : output) (st : state) : state :=
  match data_get o "text/plain" with
  | Some text_output =>
      set_aggregated
        (aggregated_output st +:+ Py.nl +:+ Py.tab +:+ Py.tab
           +:+ Py.html_escape text_output) st
  | None => st
  end.

(** Lines 104 to 110: the stdout stream. *)
Definition handle_stream (o : output) (st : state) : state :=
  if is_stdout_stream o then
    let stream_output := default "" (text o) in
    set_aggregated
      (aggregated_output st +:+ Py.nl +:+ Py.tab +:+ Py.tab
         +:+ Py.html_escape stream_output) st
  else st.

(** Lines 114 to 165: an image, embedded or saved as a file. *)
Definition handle_image (o : output) (st : state) : state :=
  match data_get o "image/png" with
  | Some img_data =>
      let st := flush_aggregated st in
      if use_base64 then emit (base64_block img_data) st
      else
        let st := set_fig_id (fig_id st + 1) st in
        let img_filename := img_filename_of (fig_id st) in
        let output_folder := output_folder_of filename in
        let output_dir := input_dir +:+ delim +:+ output_folder in
        let st :=
          if os_path_exists (fs st) output_dir then st
          else set_fs (os_makedirs output_dir (fs st)) st in
        let st :=
          set_fs (save_plot_as_image img_data img_filename output_dir (fs st))
            st in
        emit (img_block output_folder img_filename) st
  | None => st
  end.

(** Lines 168 to 176: an error. *)
Definition handle_error (o : output) (st : state) : state :=
  if is_error o then
    let error_message := Py.join Py.nl (default [] (traceback o)) in
    emit (error_block error_message) st
  else st.

Definition process_output (st : state) (o : output) : state :=
  handle_error o (handle_image o (handle_stream o (handle_plain o st))).

Definition process_outputs (st : state) (os : list output) : state :=
  foldl process_output st os.

(** [lines]: the stripped lines of the escaped source that are not blank. *)
Definition content_lines (markdown_content : string) : list string :=
  List.filter Py.truthy (Py.strip <$> Py.splitlines markdown_content).

Definition is_header (markdown_content : string) : bool :=
  match content_lines markdown_content with
  | [l] => Py.startswith "#" l
  | _ => false
  end.

(** Lines 193 to 230: a markdown cell. *)
Definition process_markdown (src : string) (st : state) : state :=
  let markdown_content := Py.html_escape src in
  if is_header markdown_content then
    let header_level := Py.count "#" markdown_content in
    let markdown_content := Py.last_item (Py.split "# " markdown_content) in
    emit (heading_block header_level markdown_content) st
  else emit (markdown_block markdown_content) st.

(** The body of the loop over the cells (lines 80 to 230); a cell that is
    neither code nor markdown contributes nothing. *)
Definition process_cell (st : state) (c : cell) : state :=
  if bool_decide (cell_type c = "code") then
    let st := emit (code_block (source c)) st in
    let st := process_outputs st (default [] (outputs c)) in
    flush_aggregated st
  else if bool_decide (cell_type c = "markdown") then
    process_markdown (source c) st
  else st.

Definition run (fs0 : filesystem) (nb : notebook) : state :=
  foldl process_cell (init fs0) nb.

(** The returned markup, and the file system the call leaves behind. *)
Definition extract_html_from_notebook (fs0 : filesystem) (nb : notebook)
    : string * filesystem :=
  let st := run fs0 nb in
  (Py.join Py.nl (html_output st), fs st).

End Render.

(** The text an output adds to the aggregation buffer. *)
Definition appended_text (o : output) : string :=
  match data_get o "text/plain" with
  | Some text_output =>
      Py.nl +:+ Py.tab +:+ Py.tab +:+ Py.html_escape text_output
  | None => ""
  end
  +:+ (if is_stdout_stream o
       then Py.nl +:+ Py.tab +:+ Py.tab
              +:+ Py.html_escape (default "" (text o))
       else "").

(** The fragment an error output contributes. *)
Definition error_fragments (o : output) : list string :=
  if is_error o
  then [error_block (Py.join Py.nl (default [] (traceback o)))]
  else [].

(** The state in which a cell starts when nothing is pending: no fragment
    yet, an empty buffer, and the figure counter and file system reached so
    far. *)
Definition cell_start (fig : nat) (w : filesystem) : state :=
  {| html_output := []; fig_id := fig; aggregated_output := ""; fs := w |}.

(** The same state with the fragments [h] in front of its markup. *)
Definition prepend (h : list string) (st : state) : state :=
  {| html_output := h ++ html_output st;
     fig_id := fig_id st;
     aggregated_output := aggregated_output st;
     fs := fs st |}.

(** The paths of the files written, oldest first. *)
Definition written_files (w : filesystem) : list string :=
  omap (λ e, match e with
             | WriteFile path _ => Some path
             | MakeDirs _ => None
             end) (log w).

Definition empty_fs : filesystem := {| existing := ∅; log := [] |}.

Definition code_cell (src : string) (outs : list output) : cell :=
  {| cell_type := "code"; source := src; outputs := Some outs |}.

Definition markdown_cell (src : string) : cell :=
  {| cell_type := "markdown"; source := src; outputs := None |}.

Definition stream_output (nm txt : string) : output :=
  {| output_type := Some "stream"; name := Some nm; text := Some txt;
     data := None; traceback := None |}.

Definition error_output (tb : list string) : output :=
  {| output_type := Some "error"; name := None; text := None;
     data := None; traceback := Some tb |}.

Definition data_output (ty : string) (d : gmap string string) : output :=
  {| output_type := Some ty; name := None; text := None;
     data := Some d; traceback := None |}.

Definition image_output (payload : string) : output :=
  data_output "display_data" {[ "image/png" := payload ]}.

End Renderer.

(** ** The hierarchy extractor: [html_to_hierarchical_json] *)

Module Hierarchy.

(** The document tree the HTML library hands back: text nodes and
    elements.  The library is external; the tree is the extractor's input
    here and the functions below model the queries the extractor makes. *)
Inductive node :=
  | Text (s : string)
  | Elem (name : string) (attrs : list (string * string))
      (children : list node).

(** A tag as [find_all] yields it: the element and, because the extractor
    asks for them, the nodes that follow it under the same parent. *)
Record tag := {
  tag_node : node;
  next_siblings : list node
}.

Definition is_tag (n : node) : bool :=
  match n with
  | Elem _ _ _ => true
  | Text _ => false
  end.

(** [tag.name]. *)
Definition node_name (n : node) : string :=
  match n with
  | Elem nm _ _ => nm
  | Text _ => ""
  end.

(** The library's output formatter replaces the three characters below in
    text and attribute values. *)
Fixpoint substitute_xml (s : string) : string :=
  match s with
  | EmptyString => ""
  | String c s' =>
      (if Ascii.eqb c "&"%char then "&amp;"
       else if Ascii.eqb c "<"%char then "&lt;"
       else if Ascii.eqb c ">"%char then "&gt;"
       else String c "") +:+ substitute_xml s'
  end.

Definition attrs_str (attrs : list (string * string)) : string :=
  Py.concat
    ((λ kv, " " +:+ kv.1 +:+ "=" +:+ String Py.dquote (substitute_xml kv.2)
              +:+ String Py.dquote "") <$> attrs).

Definition void_elements : list string :=
  ["area"; "base"; "br"; "col"; "embed"; "hr"; "img"; "input"; "keygen";
   "link"; "menuitem"; "meta"; "param"; "source"; "track"; "wbr"].

(** [str(tag)]. *)
Fixpoint node_str (n : node) : string :=
  match n with
  | Text s => substitute_xml s
  | Elem nm attrs kids =>
      let inner :=
        (fix go (l : list node) : string :=
           match l with
           | [] => ""
           | k :: l' => node_str k +:+ go l'
           end) kids in
      match kids with
      | [] =>
          if bool_decide (nm ∈ void_elements)
          then "<" +:+ nm +:+ attrs_str attrs +:+ "/>"
          else "<" +:+ nm +:+ attrs_str attrs +:+ "></" +:+ nm +:+ ">"
      | _ =>
          "<" +:+ nm +:+ attrs_str attrs +:+ ">" +:+ inner
          +:+ "</" +:+ nm +:+ ">"
      end
  end.

(** [re.match(r'h[1-6]', s)]: the pattern at the start of [s]. *)
Definition re_match_h (s : string) : bool :=
  match s with
  | String c (String d _) =>
      Ascii.eqb c "h"%char
      && (49 <=? nat_of_ascii d) && (nat_of_ascii d <=? 54)
  | _ => false
  end.

(** [re.compile(r'h[1-6]').search(s)], which is how [find_all] applies a
    compiled pattern to a tag name: the pattern anywhere in [s]. *)
Fixpoint re_search_h (s : string) : bool :=
  re_match_h s
  || match s with
     | EmptyString => false
     | String _ s' => re_search_h s'
     end.

(** [soup.find_all(re.compile(r'h[1-6]'))]: the matching elements in
    document order. *)
Fixpoint find_all_node (n : node) (sibs : list node) : list tag :=
  match n with
  | Text _ => []
  | Elem nm _ kids =>
      (if re_search_h nm
       then [{| tag_node := n; next_siblings := sibs |}] else [])
      ++ (fix go (l : list node) : list tag :=
            match l with
            | [] => []
            | k :: l' => find_all_node k l' ++ go l'
            end) kids
  end.

Fixpoint find_all (soup : list node) : list tag :=
  match soup with
  | [] => []
  | n :: rest => find_all_node n rest ++ find_all rest
  end.

(** [int(c)] for a one-character string; [None] stands for [ValueError]. *)
Definition int_of_char (c : ascii) : option nat :=
  let n := nat_of_ascii c in
  if (48 <=? n) && (n <=? 57) then Some (n - 48) else None.

(** [int(tag.name[1])]. *)
Definition tag_level (t : tag) : option nat :=
  match node_name (tag_node t) with
  | String _ (String d _) => int_of_char d
  | _ => None
  end.

Fixpoint all_strings (n : node) : list string :=
  match n with
  | Text s => [s]
  | Elem _ _ kids =>
      (fix go (l : list node) : list string :=
         match l with
         | [] => []
         | k :: l' => all_strings k ++ go l'
         end) kids
  end.

(** [tag.get_text(strip=True)]. *)
Definition tag_title (t : tag) : string :=
  Py.concat (List.filter Py.truthy (Py.strip <$> all_strings (tag_node t))).

(** [tag.find_next_siblings()]: the elements among the following nodes. *)
Definition find_next_siblings (t : tag) : list node :=
  List.filter is_tag (next_siblings t).

(** [contents]: lines 44 to 47. *)
Definition tag_contents (t : tag) : string :=
  node_str (tag_node t)
  +:+ Py.concat
        (node_str <$>
           List.filter (λ sibling, negb (re_match_h (node_name sibling)))
             (find_next_siblings t)).

(** A Python dictionary with string keys, in insertion order; assigning to
    a key that is present replaces its value where it stands. *)
Fixpoint dict_set {V} (k : string) (v : V) (d : list (string * V))
    : list (string * V) :=
  match d with
  | [] => [(k, v)]
  | (k', v') :: d' =>
      if decide (k = k') then (k, v) :: d' else (k', v') :: dict_set k v d'
  end.

(** The section dictionaries live in a store and are named by their index
    in it: the stack and the parent's [sections] mapping both refer to the
    same object, and a section is updated after it was attached. *)
Record section_obj := {
  contents : string;
  sections : option (list (string * nat))
}.

Record state := {
  store : list section_obj;
  root : list (string * nat);
  stack : list (nat * nat)
}.

Definition init : state := {| store := []; root := []; stack := [] |}.

(** [while stack and stack[-1][1] >= level: stack.pop()]; the head of the
    list is the top of the stack. *)
Fixpoint pop_while (level : nat) (stk : list (nat * nat)) : list (nat * nat) :=
  match stk with
  | [] => []
  | (r, l) :: stk' => if level <=? l then pop_while level stk' else stk
  end.

(** [parent["sections"][title] = section], creating the mapping first when
    the key is absent. *)
Definition attach (title : string) (r : nat) (parent : section_obj)
    : section_obj :=
  {| contents := contents parent;
     sections := Some (dict_set title r (default [] (sections parent))) |}.

(** One iteration of the loop, for a heading of level [level]. *)
Definition add_section (level : nat) (title cont : string) (st : state)
    : state :=
  let r := length (store st) in
  let section := {| contents := cont; sections := None |} in
  let st1 := store st ++ [section] in
  let stk := pop_while level (stack st) in
  match stk with
  | (p, _) :: _ =>
      match st1 !! p with
      | Some parent =>
          {| store := <[p := attach title r parent]> st1;
             root := root st;
             stack := (r, level) :: stk |}
      | None => {| store := st1; root := root st; stack := (r, level) :: stk |}
      end
  | [] =>
      {| store := st1;
         root := dict_set title r (root st);
         stack := (r, level) :: stk |}
  end.

Definition step (st : state) (t : tag) : option state :=
  level ← tag_level t;
  Some (add_section level (tag_title t) (tag_contents t) st).

Fixpoint scan (st : state) (tags : list tag) : option state :=
  match tags with
  | [] => Some st
  | t :: ts => st' ← step st t; scan st' ts
  end.

(** The value that is serialised: a section with its nested sections. *)
Inductive json_section :=
  | JSection (cont : string) (subs : option (list (string * json_section))).

(** Reading a section out of the store.  References only point to objects
    allocated later, so a fuel of the size of the store is enough. *)
Fixpoint read_section (fuel : nat) (h : list section_obj) (r : nat)
    : option json_section :=
  match fuel with
  | O => None
  | S f =>
      o ← h !! r;
      match sections o with
      | None => Some (JSection (contents o) None)
      | Some d =>
          kids ← mapM (λ kv, s ← read_section f h kv.2; Some (kv.1, s)) d;
          Some (JSection (contents o) (Some kids))
      end
  end.

Definition read_dict (h : list section_obj) (d : list (string * nat))
    : option (list (string * json_section)) :=
  mapM (λ kv, s ← read_section (length h) h kv.2; Some (kv.1, s)) d.

(** [html_to_hierarchical_json], from the parsed document on; [None] is the
    [ValueError] of [int]. *)
Definition html_to_hierarchical_json (soup : list node) (filename : string)
    : option (string * list (string * json_section)) :=
  st ← scan init (find_all soup);
  d ← read_dict (store st) (root st);
  Some (filename, d).

(** The shape the store keeps: a mapping only refers to sections allocated
    after its owner, and the root mapping and the stack only refer to
    sections that exist. *)
Record wf (st : state) : Prop := {
  wf_store :
    ∀ p o d, store st !! p = Some o → sections o = Some d →
      Forall (λ kv : string * nat, p < kv.2 < length (store st)) d;
  wf_root : Forall (λ kv : string * nat, kv.2 < length (store st)) (root st);
  wf_stack : Forall (λ e : nat * nat, e.1 < length (store st)) (stack st)
}.

Definition heading (lvl : string) (title : string) : node :=
  Elem ("h" +:+ lvl) [] [Text title].

Definition para (body : string) : node := Elem "p" [] [Text body].

(** The tree of the fragment the renderer emits for a markdown heading
    cell: the heading alone in its block, its text on a line of its own. *)
Definition rendered_heading (lvl : string) (title : string) : node :=
  Elem "div" [("class", "markdown-cell")]
    [Text (Py.nl +:+ Py.tab);
     Elem ("h" +:+ lvl) []
       [Text (Py.nl +:+ Py.tab +:+ Py.tab +:+ title +:+ Py.nl +:+ Py.tab)];
     Text Py.nl].

(** The tree of the fragment the renderer emits for a code cell whose
    source is the markup [<h1>A</h1><p>x</p><h2>B</h2><p>y</p>]. *)
Definition rendered_code_cell : node :=
  Elem "div" [("class", "code-cell")]
    [Text (Py.nl +:+ Py.tab);
     Elem "code" [("class", "language-python")]
       [Text (Py.nl +:+ Py.tab +:+ Py.tab);
        heading "1" "A"; para "x"; heading "2" "B"; para "y";
        Text (Py.nl +:+ Py.tab)];
     Text Py.nl].

End Hierarchy.

(** ** Definitions that follow the wording of the specification *)

Module Spec.

(** The number of occurrences of the character [c] in [s]. *)
Fixpoint count_char (c : ascii) (s : string) : nat :=
  match s with
  | EmptyString => 0
  | String d s' => (if Ascii.eqb c d then 1 else 0) + count_char c s'
  end.

(** [sub] occurs in [s]. *)
Definition occurs (sub s : string) : Prop :=
  ∃ a b, s = a +:+ sub +:+ b.

(** [s] without its first [n] characters. *)
Fixpoint drop_chars (n : nat) (s : string) : string :=
  match n, s with
  | S k, String _ s' => drop_chars k s'
  | _, _ => s
  end.

(** "Everything after the first occurrence of the separator": the rest of
    [s] behind the leftmost place where [sep] starts, when there is one. *)
Fixpoint rest_after_first (sep s : string) : option string :=
  if Py.startswith sep s then Some (drop_chars (String.length sep) s)
  else
    match s with
    | EmptyString => None
    | String _ s' => rest_after_first sep s'
    end.

Definition after_first (sep s : string) : string :=
  default s (rest_after_first sep s).

(** "The heading's own markup plus the markup of every
    immediately-following sibling element up to (not including) the next
    heading element". *)
Fixpoint upto_next_heading (sibs : list Hierarchy.node) : list Hierarchy.node :=
  match sibs with
  | [] => []
  | n :: rest =>
      if Hierarchy.re_match_h (Hierarchy.node_name n) then []
      else n :: upto_next_heading rest
  end.

Definition contents_upto_next_heading (t : Hierarchy.tag) : string :=
  Hierarchy.node_str (Hierarchy.tag_node t)
  +:+ Py.concat
        (Hierarchy.node_str <$>
           upto_next_heading (Hierarchy.find_next_siblings t)).

(** "fig_01.png, fig_02.png, ..., switching to unpadded numbering past
    10": two digits, padded with a zero, for every number. *)
Definition padded_name (n : nat) : string :=
  if n <? 10 then "fig_0" +:+ Py.str_of_nat n +:+ ".png"
  else "fig_" +:+ Py.str_of_nat n +:+ ".png".

End Spec.

(** ** The driver: [convert_notebooks_to_html] *)

Module Driver.

Import Renderer Hierarchy.

(** [s.endswith(suf)]: some suffix of [s] is [suf]. *)
Fixpoint endswith (suf s : string) : bool :=
  bool_decide (s = suf)
  || match s with
     | EmptyString => false
     | String _ s' => endswith suf s'
     end.

(** [s.rfind(c)] for a one-character [c]; [None] is the result -1. *)
Fixpoint rfind_char (c : ascii) (s : string) : option nat :=
  match s with
  | EmptyString => None
  | String d s' =>
      match rfind_char c s' with
      | Some i => Some (S i)
      | None => if Ascii.eqb d c then Some 0 else None
      end
  end.

(** The slices [s[:n]] and [s[n:]]. *)
Fixpoint str_take (n : nat) (s : string) : string :=
  match n, s with
  | S k, String c s' => String c (str_take k s')
  | _, _ => ""
  end.

Fixpoint str_drop (n : nat) (s : string) : string :=
  match n, s with
  | S k, String _ s' => str_drop k s'
  | _, _ => s
  end.

(** The loop of [splitext] over the characters between the file name's
    start and the last dot: true when one of the first [n] characters of
    [s] is not a dot. *)
Fixpoint non_dot_within (n : nat) (s : string) : bool :=
  match n, s with
  | S k, String c s' => negb (Ascii.eqb c "."%char) || non_dot_within k s'
  | _, _ => false
  end.

(** [os.path.splitext(p)] on a POSIX system: the extension starts at the
    last dot, provided that dot lies behind the last separator and is
    preceded, within the file name, by a character that is not a dot. *)
Definition splitext (p : string) : string * string :=
  let sepIndex := rfind_char "/"%char p in
  let dotIndex := rfind_char "."%char p in
  match dotIndex with
  | Some d =>
      let filenameIndex :=
        match sepIndex with
        | Some i => S i
        | None => 0
        end in
      if (match sepIndex with
          | Some i => i <? d
          | None => true
          end)
         && non_dot_within (d - filenameIndex) (str_drop filenameIndex p)
      then (str_take d p, str_drop d p)
      else (p, "")
  | None => (p, "")
  end.

(** What the driver leaves behind besides the image files: the HTML and
    JSON files, with the text or the document written to them. *)
Inductive artifact :=
  | HtmlFile (path content : string)
  | JsonFile (path : string) (doc : string * list (string * json_section)).

Record world := {
  files : filesystem;
  artifacts : list artifact;
  stdout : list string
}.

(** A call either returns or lets an exception escape; both leave a world
    behind. *)
Inductive outcome :=
  | Returned (w : world)
  | Raised (w : world).

Definition world_of (r : outcome) : world :=
  match r with
  | Returned w => w
  | Raised w => w
  end.

Definition print (line : string) (w : world) : world :=
  {| files := files w; artifacts := artifacts w; stdout := stdout w ++ [line] |}.

(** [open(path, "w")] followed by the writes: the path exists afterwards. *)
Definition write_artifact (path : string) (a : artifact) (w : world) : world :=
  {| files := {| existing := {[path]} ∪ existing (files w);
                 log := log (files w) |};
     artifacts := artifacts w ++ [a];
     stdout := stdout w |}.

Definition set_files (fs' : filesystem) (w : world) : world :=
  {| files := fs'; artifacts := artifacts w; stdout := stdout w |}.

Section Convert.

(** The two libraries the driver relies on: executing a notebook file
    ([execute_notebook], [None] when the execution raises) and parsing
    markup into a document tree. *)
Variable execute_notebook : string → option notebook.
Variable parse : string → list node.

Variables (input_folder : string) (use_base64 write_html : bool).

(** The body of the loop over the directory listing (lines 248 to 281). *)
Definition convert_file (w : world) (filename : string) : outcome :=
  let path := os_path_join input_folder filename in
  if endswith ".ipynb" filename then
    let w := print ("Processing notebook: " +:+ filename) w in
    match execute_notebook path with
    | None => Raised w
    | Some executed_notebook =>
        let '(html_content, fs') :=
          extract_html_from_notebook input_folder filename use_base64
            (files w) executed_notebook in
        let w := set_files fs' w in
        let w :=
          if write_html then
            let output_file :=
              os_path_join input_folder ((splitext filename).1 +:+ ".html") in
            write_artifact output_file
              (HtmlFile output_file
                 ("<html><body>" +:+ Py.nl +:+ html_content +:+ Py.nl
                    +:+ "</body></html>")) w
          else w in
        match html_to_hierarchical_json (parse html_content) filename with
        | None => Raised w
        | Some nb_html_json =>
            let output_json :=
              os_path_join input_folder ((splitext filename).1 +:+ ".json") in
            let w := write_artifact output_json
                       (JsonFile output_json nb_html_json) w in
            Returned
              (print ("Successfully converted '" +:+ filename +:+ "'") w)
        end
    end
  else Returned w.

(** [convert_notebooks_to_html] over the listing of [input_folder]. *)
Fixpoint convert_notebooks_to_html (w : world) (listing : list string)
    : outcome :=
  match listing with
  | [] => Returned w
  | filename :: rest =>
      match convert_file w filename with
      | Returned w' => convert_notebooks_to_html w' rest
      | Raised w' => Raised w'
      end
  end.

End Convert.

Definition is_html (a : artifact) : bool :=
  match a with
  | HtmlFile _ _ => true
  | JsonFile _ _ => false
  end.

Definition json_paths (w : world) : list string :=
  omap (λ a, match a with
             | JsonFile path _ => Some path
             | HtmlFile _ _ => None
             end) (artifacts w).

End Driver.

(** ** Markdown cells over full Python strings *)

(** A Python [str] is a sequence of code points.  The renderer's markdown
    branch reads the classes of white space and of line boundaries, which
    reach beyond the code points below 256; this module embeds that branch
    (lines 193 to 230) over sequences of arbitrary code points. *)
Module U.

Definition str := list N.

(** A literal of the program, as code points. *)
Definition of_string (s : string) : str :=
  N_of_ascii <$> String.list_ascii_of_string s.

Definition nl : N := 10.
Definition tab : N := 9.
Definition hash : N := 35.

(** [bool(s)]. *)
Definition truthy (s : str) : bool :=
  match s with
  | [] => false
  | _ :: _ => true
  end.

(** The white space of [str.strip] and [str.isspace]. *)
Definition is_space (c : N) : bool :=
  ((9 <=? c) && (c <=? 13))%N || ((28 <=? c) && (c <=? 32))%N
  || (c =? 133)%N || (c =? 160)%N || (c =? 5760)%N
  || ((8192 <=? c) && (c <=? 8202))%N
  || (c =? 8232)%N || (c =? 8233)%N || (c =? 8239)%N || (c =? 8287)%N
  || (c =? 12288)%N.

(** The line boundaries of [str.splitlines]. *)
Definition is_linebreak (c : N) : bool :=
  ((10 <=? c) && (c <=? 13))%N || ((28 <=? c) && (c <=? 30))%N
  || (c =? 133)%N || (c =? 8232)%N || (c =? 8233)%N.

(** [s.splitlines()]. *)
Fixpoint splitlines_go (cur s : str) : list str :=
  match s with
  | [] => if truthy cur then [cur] else []
  | c :: s' =>
      if is_linebreak c then
        cur ::
          match s' with
          | c' :: s'' =>
              if (c =? 13)%N && (c' =? 10)%N
              then splitlines_go [] s''
              else splitlines_go [] s'
          | [] => splitlines_go [] s'
          end
      else splitlines_go (cur ++ [c]) s'
  end.

Definition splitlines (s : str) : list str := splitlines_go [] s.

Fixpoint lstrip (s : str) : str :=
  match s with
  | [] => []
  | c :: s' => if is_space c then lstrip s' else s
  end.

Fixpoint rstrip (s : str) : str :=
  match s with
  | [] => []
  | c :: s' =>
      let r := rstrip s' in
      if is_space c && negb (truthy r) then [] else c :: r
  end.

(** [s.strip()]. *)
Definition strip (s : str) : str := rstrip (lstrip s).

(** [s.startswith(p)]. *)
Fixpoint startswith (p s : str) : bool :=
  match p, s with
  | [], _ => true
  | a :: p', b :: s' => (a =? b)%N && startswith p' s'
  | _ :: _, [] => false
  end.

(** [s.split(sep)] for a non-empty [sep]. *)
Fixpoint split_go (sep : str) (skip : nat) (cur s : str) : list str :=
  match s with
  | [] => [cur]
  | c :: s' =>
      match skip with
      | S k => split_go sep k cur s'
      | O =>
          if startswith sep s
          then cur :: split_go sep (length sep - 1) [] s'
          else split_go sep 0 (cur ++ [c]) s'
      end
  end.

Definition split (sep s : str) : list str := split_go sep 0 [] s.

(** [s.count(sub)] for a non-empty [sub]. *)
Fixpoint count_go (sub : str) (skip : nat) (s : str) : nat :=
  match s with
  | [] => 0
  | c :: s' =>
      match skip with
      | S k => count_go sub k s'
      | O =>
          if startswith sub s
          then S (count_go sub (length sub - 1) s')
          else count_go sub 0 s'
      end
  end.

Definition count (sub s : str) : nat := count_go sub 0 s.

(** [l[-1]]. *)
Definition last_item (l : list str) : str := List.last l [].

(** [html.escape(s)]. *)
Definition escape_char (c : N) : str :=
  if (c =? 38)%N then of_string "&amp;"
  else if (c =? 60)%N then of_string "&lt;"
  else if (c =? 62)%N then of_string "&gt;"
  else if (c =? 34)%N then of_string "&quot;"
  else if (c =? 39)%N then of_string "&#x27;"
  else [c].

Fixpoint html_escape (s : str) : str :=
  match s with
  | [] => []
  | c :: s' => escape_char c ++ html_escape s'
  end.

(** [lines] (lines 205 to 208). *)
Definition content_lines (markdown_content : str) : list str :=
  List.filter truthy (strip <$> splitlines markdown_content).

(** The test of line 211. *)
Definition is_header (markdown_content : str) : bool :=
  match content_lines markdown_content with
  | [l] => startswith (of_string "#") l
  | _ => false
  end.

(** The fragment appended for a markdown cell (lines 195 to 230). *)
Definition markdown_fragment (source : str) : str :=
  let markdown_content := html_escape source in
  if is_header markdown_content then
    let header_level := count (of_string "#") markdown_content in
    let markdown_content :=
      last_item (split (of_string "# ") markdown_content) in
    of_string "<div class='markdown-cell'>"
    ++ [nl; tab] ++ of_string "<h"
    ++ of_string (Py.str_of_nat header_level) ++ of_string ">"
    ++ [nl; tab; tab] ++ markdown_content
    ++ [nl; tab] ++ of_string "</h"
    ++ of_string (Py.str_of_nat header_level) ++ of_string ">"
    ++ [nl] ++ of_string "</div>"
  else
    of_string "<div class='markdown-cell'>"
    ++ [nl; tab] ++ markdown_content
    ++ [nl] ++ of_string "</div>".

End U.

(** ** Base64 payloads *)

Module Base64.

(** The position of [c] in the Base64 alphabet, when it has one. *)
Definition is_alphabet (c : ascii) : bool :=
  let n := nat_of_ascii c in
  ((65 <=? n) && (n <=? 90)) || ((97 <=? n) && (n <=? 122))
  || ((48 <=? n) && (n <=? 57)) || (n =? 43) || (n =? 47).

(** The scan of [binascii.a2b_base64] in its default, lenient mode, as far
    as it decides between returning and raising: [quad_pos] is the number
    of alphabet characters read in the current group of four, [pads] the
    number of "=" seen since the last alphabet character.  Characters
    outside the alphabet are skipped; enough padding ends the scan; the
    input is rejected when it ends inside a group. *)
Fixpoint a2b_accepts (quad_pos pads : nat) (s : string) : bool :=
  match s with
  | EmptyString => quad_pos =? 0
  | String c s' =>
      if Ascii.eqb c "="%char then
        if 2 <=? quad_pos then
          if 4 <=? quad_pos + (pads + 1) then true
          else a2b_accepts quad_pos (pads + 1) s'
        else a2b_accepts quad_pos pads s'
      else if is_alphabet c then
        a2b_accepts (match quad_pos with
                     | 3 => 0
                     | q => S q
                     end) 0 s'
      else a2b_accepts quad_pos pads s'
  end.

Fixpoint is_ascii_str (s : string) : bool :=
  match s with
  | EmptyString => true
  | String c s' => (nat_of_ascii c <? 128) && is_ascii_str s'
  end.

(** [base64.b64decode(s)] returns (rather than raising) for the string
    [s]: the string is ASCII and the scan accepts it. *)
Definition b64decode_accepts (s : string) : bool :=
  is_ascii_str s && a2b_accepts 0 0 s.

End Base64.

(** ** The renderer with the exception of the image decoder *)

(** [save_plot_as_image] decodes the payload after it has opened the file
    (line 29), and [base64.b64decode] raises on a payload it does not
    accept; nothing catches the exception, so it ends the rendering.  This
    module repeats the path from [save_plot_as_image] up to
    [extract_html_from_notebook] with that exception, [None] standing for
    it; every other step is the renderer's. *)
Module Checked.

Import Renderer.

Definition save_plot_as_image (img_data img_filename output_dir : string)
    (w : filesystem) : option filesystem :=
  if Base64.b64decode_accepts img_data
  then Some (Renderer.save_plot_as_image img_data img_filename output_dir w)
  else None.

Section Render.

Variables (input_dir filename : string) (use_base64 : bool).

Definition handle_image (o : output) (st : state) : option state :=
  match data_get o "image/png" with
  | Some img_data =>
      let st := flush_aggregated st in
      if use_base64 then Some (emit (base64_block img_data) st)
      else
        let st := set_fig_id (fig_id st + 1) st in
        let img_filename := img_filename_of (fig_id st) in
        let output_folder := output_folder_of filename in
        let output_dir := input_dir +:+ delim +:+ output_folder in
        let st :=
          if os_path_exists (fs st) output_dir then st
          else set_fs (os_makedirs output_dir (fs st)) st in
        w ← save_plot_as_image img_data img_filename output_dir (fs st);
        Some (emit (img_block output_folder img_filename) (set_fs w st))
  | None => Some st
  end.

Definition process_output (st : state) (o : output) : option state :=
  st' ← handle_image o (handle_stream o (handle_plain o st));
  Some (handle_error o st').

Fixpoint process_outputs (st : state) (os : list output) : option state :=
  match os with
  | [] => Some st
  | o :: os' => st' ← process_output st o; process_outputs st' os'
  end.

Definition process_cell (st : state) (c : cell) : option state :=
  if bool_decide (cell_type c = "code") then
    st' ← process_outputs (emit (code_block (source c)) st)
           (default [] (outputs c));
    Some (flush_aggregated st')
  else if bool_decide (cell_type c = "markdown") then
    Some (process_markdown (source c) st)
  else Some st.

Fixpoint run_from (st : state) (nb : notebook) : option state :=
  match nb with
  | [] => Some st
  | c :: nb' => st' ← process_cell st c; run_from st' nb'
  end.

Definition extract_html_from_notebook (fs0 : filesystem) (nb : notebook)
    : option (string * filesystem) :=
  st ← run_from (init fs0) nb;
  Some (Py.join Py.nl (html_output st), fs st).

End Render.

End Checked.

(** ** The wording of the specification, over full strings *)

Module SpecU.

(** A blank text: white space only. *)
Definition blank (s : U.str) : Prop := Forall (λ c, U.is_space c = true) s.

(** A text within one line: it holds no line boundary. *)
Definition one_line (s : U.str) : Prop :=
  Forall (λ c, U.is_linebreak c = false) s.

(** "After removing blank lines the text reduces to exactly one non-blank
    line and that line starts with #": the text is blank up to a "#", goes
    on within the line of that "#", and is blank behind it. *)
Definition single_heading_line (mc : U.str) : Prop :=
  ∃ before body after,
    mc = before ++ [U.hash] ++ body ++ after
    ∧ blank before ∧ one_line body ∧ blank after.

(** "The total count of # characters". *)
Definition count_hash (s : list N) : nat :=
  length (filter (λ c, c = U.hash) s).

(** The number a decimal numeral denotes. *)
Definition decimal_value (s : string) : option nat :=
  Nat.of_uint <$> NilEmpty.uint_of_string s.

End SpecU.

(** ** Notions used to state further properties *)

Module Notions.

Import Renderer Hierarchy.

(** Neither angle bracket occurs in [s]. *)
Definition no_angle (s : string) : Prop :=
  Spec.count_char "<" s = 0 ∧ Spec.count_char ">" s = 0.

(** The image payloads of a list of outputs and of a notebook, in the
    order in which the renderer meets them. *)
Definition output_images (os : list output) : list string :=
  omap (λ o, data_get o "image/png") os.

Definition cell_images (c : cell) : list string :=
  if bool_decide (cell_type c = "code")
  then output_images (default [] (outputs c)) else [].

Definition notebook_images (nb : notebook) : list string :=
  nb ≫= cell_images.

(** The writes of the images [imgs] when [fig] images were saved before. *)
Fixpoint image_writes (dir : string) (fig : nat) (imgs : list string)
    : list fs_event :=
  match imgs with
  | [] => []
  | img :: rest =>
      WriteFile (os_path_join dir (img_filename_of (fig + 1))) img
      :: image_writes dir (fig + 1) rest
  end.

(** The file-system operations of saving [imgs]: the directory is made
    first when there is an image to save and it does not exist yet. *)
Definition image_events (dir : string) (dir_exists : bool) (fig : nat)
    (imgs : list string) : list fs_event :=
  (match imgs with
   | [] => []
   | _ :: _ => if dir_exists then [] else [MakeDirs dir]
   end) ++ image_writes dir fig imgs.

(** What the renderer's markup depends on: everything but the file
    system. *)
Definition view (st : Renderer.state) : list string * nat * string :=
  (html_output st, fig_id st, aggregated_output st).

(** Between the states [st] and [st'] the images [imgs] were saved under
    [dir]: the log grew by their operations, the counter by their number,
    and the directory exists as soon as one image was saved. *)
Definition saved (dir : string) (st st' : Renderer.state) (imgs : list string)
    : Prop :=
  log (fs st')
  = log (fs st)
    ++ image_events dir (os_path_exists (fs st) dir) (fig_id st) imgs
  ∧ fig_id st' = fig_id st + length imgs
  ∧ os_path_exists (fs st') dir
    = match imgs with
      | [] => os_path_exists (fs st) dir
      | _ :: _ => true
      end.

(** The levels and titles of the headings scanned so far. *)
Definition level_of (ts : list tag) (i : nat) : option nat :=
  ts !! i ≫= tag_level.

(** [p] is the nearest heading before position [n] whose level is strictly
    below [level]. *)
Definition nearest_lower (ts : list tag) (n level p : nat) : Prop :=
  p < n
  ∧ (∃ lp, level_of ts p = Some lp ∧ lp < level)
  ∧ ∀ k lk, p < k < n → level_of ts k = Some lk → level ≤ lk.

(** No heading before position [n] has a level strictly below [level]. *)
Definition none_lower (ts : list tag) (n level : nat) : Prop :=
  ∀ k lk, k < n → level_of ts k = Some lk → level ≤ lk.

(** The entry [(k, r)] of the mapping of section [p] is right: [r] is a
    heading with title [k] and [p] is the nearest heading before it with a
    strictly lower level. *)
Definition attached_under (ts : list tag) (p : nat) (k : string) (r : nat)
    : Prop :=
  ∃ tr lr, ts !! r = Some tr ∧ tag_title tr = k ∧ tag_level tr = Some lr
           ∧ nearest_lower ts r lr p.

(** The entry [(k, r)] of the root mapping is right: [r] is a heading with
    title [k] and no heading before it has a strictly lower level. *)
Definition attached_at_root (ts : list tag) (k : string) (r : nat) : Prop :=
  ∃ tr lr, ts !! r = Some tr ∧ tag_title tr = k ∧ tag_level tr = Some lr
           ∧ none_lower ts r lr.

(** What the stack says about the headings scanned: popping it for a new
    heading of level [level] uncovers the nearest earlier heading of a
    strictly lower level, or nothing when there is none. *)
Definition stack_tracks (ts : list tag) (st : Hierarchy.state) : Prop :=
  length (store st) = length ts
  ∧ ∀ level,
      match pop_while level (stack st) with
      | (p, lp) :: _ => nearest_lower ts (length ts) level p
      | [] => none_lower ts (length ts) level
      end.

(** The keys of every mapping are distinct. *)
Definition keys_distinct (st : Hierarchy.state) : Prop :=
  (∀ p o d, store st !! p = Some o → sections o = Some d → NoDup d.*1)
  ∧ NoDup (root st).*1.

End Notions.

Import Renderer.

(** ** Facts about the string primitives *)

Lemma app_nil_str (s : string) : "" +:+ s = s.
Proof. reflexivity. Qed.

Lemma app_cons_str (c : ascii) (s t : string) :
  String c s +:+ t = String c (s +:+ t).
Proof. reflexivity. Qed.

Ltac str_norm_in H :=
  repeat first [rewrite app_nil_str in H | rewrite app_cons_str in H].

Lemma app_empty_r (s : string) : s +:+ "" = s.
Proof.
  induction s as [|c s IH]; [done|]. by rewrite app_cons_str, IH.
Qed.

Lemma app_assoc_str (a b c : string) : (a +:+ b) +:+ c = a +:+ b +:+ c.
Proof.
  induction a as [|x a IH]; [done|]. by rewrite !app_cons_str, IH.
Qed.

Lemma app_length_str (a b : string) :
  String.length (a +:+ b) = String.length a + String.length b.
Proof.
  induction a as [|x a IH]; [done|]. rewrite app_cons_str. simpl. by rewrite IH.
Qed.

Lemma startswith_spec (p s : string) :
  Py.startswith p s = true ↔ ∃ r, s = p +:+ r.
Proof.
  revert s. induction p as [|a p IH]; intros s; simpl.
  - split; [intros _; by exists s | done].
  - destruct s as [|b s].
    + split; [done | intros [r Hr]; discriminate Hr].
    + rewrite andb_true_iff, Ascii.eqb_eq, IH. split.
      * intros [-> [r ->]]. by exists r.
      * intros [r Hr]. rewrite app_cons_str in Hr.
        injection Hr as -> ->. eauto.
Qed.

(** [str.count] with a one-character pattern counts the occurrences of
    that character. *)
Lemma count_one_char (c : ascii) (s : string) :
  Py.count (String c "") s = Spec.count_char c s.
Proof.
  unfold Py.count. induction s as [|d s IH]; simpl; [done|].
  rewrite IH. destruct s; destruct (Ascii.eqb c d); simpl; done.
Qed.

Lemma count_char_cons (c d : ascii) (s : string) :
  Spec.count_char c (String d s)
  = (if Ascii.eqb c d then 1 else 0) + Spec.count_char c s.
Proof. reflexivity. Qed.

Lemma count_char_app (c : ascii) (a b : string) :
  Spec.count_char c (a +:+ b) = Spec.count_char c a + Spec.count_char c b.
Proof.
  induction a as [|x a IH]; [done|].
  rewrite app_cons_str. simpl. rewrite IH. lia.
Qed.

(** Escaped text holds neither angle bracket. *)
Lemma html_escape_no_angle (s : string) :
  Spec.count_char "<" (Py.html_escape s) = 0
  ∧ Spec.count_char ">" (Py.html_escape s) = 0.
Proof.
  induction s as [|c s [IH1 IH2]]; simpl; [done|].
  rewrite !count_char_app, IH1, IH2. unfold Py.escape_char.
  destruct (Ascii.eqb_spec c "&"); [done|].
  destruct (Ascii.eqb_spec c "<"); [done|].
  destruct (Ascii.eqb_spec c ">"); [done|].
  destruct (Ascii.eqb_spec c Py.dquote); [done|].
  destruct (Ascii.eqb_spec c Py.squote); [done|].
  rewrite !count_char_cons.
  destruct (Ascii.eqb_spec "<" c); [congruence|].
  destruct (Ascii.eqb_spec ">" c); [congruence|]. done.
Qed.

(** *** [str.split] *)

Lemma split_go_nonempty (sep : string) (k : nat) (cur s : string) :
  Py.split_go sep k cur s ≠ [].
Proof.
  revert k cur. induction s as [|c s IH]; intros k cur; simpl; [done|].
  destruct k; [|apply IH].
  destruct (Py.startswith sep (String c s)); [done | apply IH].
Qed.

Lemma last_item_cons (x : string) (l : list string) :
  l ≠ [] → Py.last_item (x :: l) = Py.last_item l.
Proof. by destruct l. Qed.

(** Passing the rest of a separator. *)
Lemma split_go_skip (sep u cur r : string) :
  Py.split_go sep (String.length u) cur (u +:+ r) = Py.split_go sep 0 cur r.
Proof.
  induction u as [|c u IH]; [by destruct r|].
  rewrite app_cons_str. simpl. apply IH.
Qed.

Lemma split_go_match (sep cur r : string) :
  sep ≠ "" →
  Py.split_go sep 0 cur (sep +:+ r) = cur :: Py.split_go sep 0 "" r.
Proof.
  intros Hsep. destruct sep as [|a sep]; [done|].
  assert (Py.startswith (String a sep) (String a sep +:+ r) = true) as Hp
    by (apply startswith_spec; eauto).
  rewrite app_cons_str in *. cbn [Py.split_go]. rewrite Hp.
  f_equal. cbn [String.length]. rewrite Nat.sub_1_r. simpl Nat.pred.
  apply split_go_skip.
Qed.

Lemma split_go_nomatch (sep cur : string) (c : ascii) (s : string) :
  Py.startswith sep (String c s) = false →
  Py.split_go sep 0 cur (String c s)
  = Py.split_go sep 0 (cur +:+ String c "") s.
Proof. intros Hp. cbn [Py.split_go]. by rewrite Hp. Qed.

Lemma occurs_empty (sep : string) : sep ≠ "" → ¬ Spec.occurs sep "".
Proof.
  intros Hsep (a & b & H). destruct a; [destruct sep|]; done.
Qed.

Lemma occurs_cons (sep : string) (c : ascii) (s : string) :
  Py.startswith sep (String c s) = false →
  Spec.occurs sep (String c s) → Spec.occurs sep s.
Proof.
  intros Hp (a & b & H). destruct a as [|x a].
  - rewrite app_nil_str in H.
    assert (Py.startswith sep (String c s) = true) as Hq
      by (apply startswith_spec; eauto).
    congruence.
  - rewrite app_cons_str in H. injection H as _ ->. by exists a, b.
Qed.

(** The last piece of a split: the whole text when the separator does not
    occur, and otherwise the text behind an occurrence that is followed by
    no other. *)
Lemma split_go_last (sep : string) (n : nat) :
  sep ≠ "" →
  ∀ s cur, String.length s < n →
    let t := Py.last_item (Py.split_go sep 0 cur s) in
    (¬ Spec.occurs sep s ∧ t = cur +:+ s)
    ∨ (∃ pre, s = pre +:+ sep +:+ t ∧ ¬ Spec.occurs sep t).
Proof.
  intros Hsep. induction n as [|n IH]; intros s cur Hn; [lia|].
  destruct s as [|c s].
  - left. split; [by apply occurs_empty|]. simpl. by rewrite app_empty_r.
  - destruct (Py.startswith sep (String c s)) eqn:Hp.
    + apply startswith_spec in Hp as [r Hr]. rewrite Hr.
      rewrite split_go_match by done.
      rewrite last_item_cons by apply split_go_nonempty.
      assert (String.length r < n) as Hr'.
      { assert (String.length (String c s) = String.length (sep +:+ r))
          as Hl by (by rewrite Hr).
        rewrite app_length_str in Hl. simpl in Hl, Hn.
        destruct sep; [done|]. simpl in Hl. lia. }
      right. destruct (IH r "" Hr') as [[Hno Ht]|(pre & Hpre & Hno)].
      * exists "". rewrite app_nil_str in Ht. rewrite Ht.
        split; [reflexivity | assumption].
      * exists (sep +:+ pre). split; [|done].
        rewrite app_assoc_str. by rewrite <- Hpre.
    + rewrite split_go_nomatch by done.
      assert (String.length s < n) as Hs by (simpl in Hn; lia).
      destruct (IH s (cur +:+ String c "") Hs) as [[Hno Ht]|(pre & Hpre & Hno)].
      * left. split; [intros Ho; by apply Hno, (occurs_cons sep c)|].
        rewrite Ht. by rewrite app_assoc_str.
      * right. exists (String c pre). split; [|done].
        rewrite app_cons_str. by rewrite <- Hpre.
Qed.

Lemma split_last (sep s : string) :
  sep ≠ "" →
  let t := Py.last_item (Py.split sep s) in
  (¬ Spec.occurs sep s ∧ t = s)
  ∨ (∃ pre, s = pre +:+ sep +:+ t ∧ ¬ Spec.occurs sep t).
Proof.
  intros Hsep. unfold Py.split.
  apply (split_go_last sep (S (String.length s)) Hsep s ""). lia.
Qed.

(** For the separator of the renderer, an occurrence followed by no other
    is the last one. *)
Lemma hash_space_last (pre t a b : string) :
  pre +:+ "# " +:+ t = a +:+ "# " +:+ b →
  ¬ Spec.occurs "# " t →
  String.length a ≤ String.length pre.
Proof.
  revert a. induction pre as [|x pre IH]; intros a H Hno.
  - destruct a as [|y a]; [done|]. exfalso.
    destruct a as [|z a]; str_norm_in H.
    + discriminate H.
    + injection H as _ _ H. apply Hno. by exists a, b.
  - destruct a as [|y a]; [simpl; lia|].
    str_norm_in H. injection H as _ H.
    simpl. apply IH in H; [lia | done].
Qed.

(** ** The renderer *)

(** *** Each step only appends to the markup *)

Lemma flush_aggregated_buffer (st : state) :
  aggregated_output (flush_aggregated st) = "".
Proof.
  unfold flush_aggregated. by destruct (aggregated_output st) eqn:E; simpl.
Qed.

Lemma flush_aggregated_html (st : state) :
  html_output (flush_aggregated st)
  = html_output st
    ++ (if Py.truthy (aggregated_output st)
        then [out_block (aggregated_output st)] else []).
Proof.
  unfold flush_aggregated.
  destruct (Py.truthy (aggregated_output st)); simpl; [done|].
  by rewrite app_nil_r.
Qed.

Lemma flush_aggregated_fs (st : state) :
  fs (flush_aggregated st) = fs st ∧ fig_id (flush_aggregated st) = fig_id st.
Proof.
  unfold flush_aggregated. by destruct (Py.truthy (aggregated_output st)).
Qed.

Lemma text_handlers (o : output) (st : state) :
  handle_stream o (handle_plain o st)
  = set_aggregated (aggregated_output st +:+ appended_text o) st.
Proof.
  unfold handle_stream, handle_plain, appended_text, set_aggregated.
  destruct st as [h f a w].
  destruct (data_get o "text/plain"), (is_stdout_stream o); simpl;
    rewrite ?app_empty_r, ?app_assoc_str; reflexivity.
Qed.

Lemma handle_error_spec (o : output) (st : state) :
  handle_error o st
  = {| html_output := html_output st ++ error_fragments o;
       fig_id := fig_id st;
       aggregated_output := aggregated_output st;
       fs := fs st |}.
Proof.
  unfold handle_error, error_fragments. destruct st as [h f a w].
  destruct (is_error o); simpl; [done | by rewrite app_nil_r].
Qed.

(** *** C10 *)

(** C10: a stream output whose name is not "stdout", and any output that
    carries no text/plain data, no image/png data, is no stdout stream and
    has no output type "error", is dropped: processing it leaves the whole
    state of the renderer (markup fragments, aggregation buffer, figure
    counter, file system) as it was. *)
Theorem C10_unhandled_outputs_are_dropped
    (input_dir filename : string) (use_base64 : bool)
    (st : state) (o : output) :
  (data_get o "text/plain" = None →
   data_get o "image/png" = None →
   is_stdout_stream o = false →
   is_error o = false →
   process_output input_dir filename use_base64 st o = st)
  ∧ (output_type o = Some "stream" →
     name o ≠ Some "stdout" →
     data o = None →
     process_output input_dir filename use_base64 st o = st).
Proof.
  assert (data_get o "text/plain" = None →
          data_get o "image/png" = None →
          is_stdout_stream o = false →
          is_error o = false →
          process_output input_dir filename use_base64 st o = st) as Hgen.
  { intros Hp Hi Hs He.
    unfold process_output, handle_error, handle_image, handle_stream,
      handle_plain.
    by rewrite Hp, Hs, Hi, He. }
  split; [exact Hgen|].
  intros Hty Hname Hdata. apply Hgen.
  - unfold data_get. by rewrite Hdata.
  - unfold data_get. by rewrite Hdata.
  - unfold is_stdout_stream.
    rewrite (bool_decide_eq_false_2 (name o = Some "stdout")) by done.
    apply andb_false_r.
  - unfold is_error. rewrite Hty. reflexivity.
Qed.

Lemma C10_witness :
  process_output "dir" "nb.ipynb" false
    (set_aggregated "pending" (init empty_fs)) (stream_output "stderr" "warn")
  = set_aggregated "pending" (init empty_fs)
  ∧ process_output "dir" "nb.ipynb" false
      (set_aggregated "pending" (init empty_fs))
      {| output_type := Some "update_display_data"; name := None;
         text := None; data := Some {[ "text/html" := "<b>x</b>" ]};
         traceback := None |}
    = set_aggregated "pending" (init empty_fs).
Proof.
  split.
  - apply (proj2 (C10_unhandled_outputs_are_dropped "dir" "nb.ipynb" false
                    (set_aggregated "pending" (init empty_fs))
                    (stream_output "stderr" "warn")));
      [reflexivity | discriminate | reflexivity].
  - apply (proj1 (C10_unhandled_outputs_are_dropped "dir" "nb.ipynb" false
                    (set_aggregated "pending" (init empty_fs)) _));
      vm_compute; reflexivity.
Defined.

(** *** The image step *)

Lemma handle_image_none (input_dir filename : string) (use_base64 : bool)
    (o : output) (st : state) :
  data_get o "image/png" = None →
  handle_image input_dir filename use_base64 o st = st.
Proof. intros H. unfold handle_image. by rewrite H. Qed.

Lemma handle_image_some (input_dir filename : string) (use_base64 : bool)
    (o : output) (st : state) (img : string) :
  data_get o "image/png" = Some img →
  aggregated_output (handle_image input_dir filename use_base64 o st) = ""
  ∧ html_output (handle_image input_dir filename use_base64 o st)
    = html_output st
      ++ (if Py.truthy (aggregated_output st)
          then [out_block (aggregated_output st)] else [])
      ++ [if use_base64 then base64_block img
          else img_block (output_folder_of filename)
                 (img_filename_of (fig_id st + 1))].
Proof.
  intros H. unfold handle_image. rewrite H.
  pose proof (flush_aggregated_buffer st) as Hb.
  pose proof (flush_aggregated_html st) as Hh.
  pose proof (flush_aggregated_fs st) as [_ Hf].
  destruct use_base64.
  - simpl. rewrite Hb, Hh. split; [done | by rewrite <- app_assoc].
  - destruct (os_path_exists _ _); simpl;
      rewrite Hb, Hh, Hf; (split; [done | by rewrite <- app_assoc]).
Qed.

(** *** C3 *)

(** C3: an output whose output type is "error" (and which, as error outputs
    do, carries no data payload) is emitted at once as one preformatted
    block holding the traceback lines joined by newlines, and the
    aggregation buffer is left as it was.  An output without an image
    payload never flushes: the buffer only grows by the text of that
    output and the only fragment that can be emitted is the error block.
    An output with an image payload emits the pending text (including the
    text the same output contributed) as an "Out:" block in front of the
    image and empties the buffer. *)
Theorem C3_error_block_and_flush_trigger
    (input_dir filename : string) (use_base64 : bool)
    (st : state) (o : output) :
  (output_type o = Some "error" →
   data_get o "text/plain" = None →
   data_get o "image/png" = None →
   process_output input_dir filename use_base64 st o
   = emit (error_block (Py.join Py.nl (default [] (traceback o)))) st)
  ∧ (data_get o "image/png" = None →
     aggregated_output (process_output input_dir filename use_base64 st o)
     = aggregated_output st +:+ appended_text o
     ∧ html_output (process_output input_dir filename use_base64 st o)
       = html_output st ++ error_fragments o)
  ∧ (∀ img, data_get o "image/png" = Some img →
     let pending := aggregated_output st +:+ appended_text o in
     aggregated_output (process_output input_dir filename use_base64 st o)
     = ""
     ∧ ∃ image_fragment,
         html_output (process_output input_dir filename use_base64 st o)
         = html_output st
           ++ (if Py.truthy pending then [out_block pending] else [])
           ++ [image_fragment] ++ error_fragments o).
Proof.
  repeat split.
  - intros Hty Hp Hi.
    unfold process_output, handle_error, handle_image, handle_stream,
      handle_plain, is_stdout_stream, is_error.
    by rewrite Hp, Hi, Hty.
  - unfold process_output. rewrite text_handlers, handle_image_none by done.
    by rewrite handle_error_spec.
  - unfold process_output. rewrite text_handlers, handle_image_none by done.
    by rewrite handle_error_spec.
  - unfold process_output. rewrite text_handlers, handle_error_spec. simpl.
    by apply (handle_image_some input_dir filename use_base64 o _ img).
  - unfold process_output. rewrite text_handlers, handle_error_spec. simpl.
    eexists.
    destruct (handle_image_some input_dir filename use_base64 o
                (set_aggregated (aggregated_output st +:+ appended_text o) st)
                img H) as [_ ->].
    simpl. by rewrite <- !app_assoc.
Qed.

Lemma C3_witness :
  let st := set_aggregated "pending" (init empty_fs) in
  process_output "dir" "nb.ipynb" false st
    (error_output ["Traceback"; "ZeroDivisionError"])
  = emit (error_block ("Traceback" +:+ Py.nl +:+ "ZeroDivisionError")) st
  ∧ aggregated_output
      (process_output "dir" "nb.ipynb" false st (stream_output "stdout" "1"))
    = "pending" +:+ appended_text (stream_output "stdout" "1")
  ∧ aggregated_output
      (process_output "dir" "nb.ipynb" false st (image_output "AAAA"))
    = "".
Proof.
  split; [|split].
  - apply (proj1 (C3_error_block_and_flush_trigger "dir" "nb.ipynb" false
                    (set_aggregated "pending" (init empty_fs))
                    (error_output ["Traceback"; "ZeroDivisionError"])));
      reflexivity.
  - apply (proj1 (proj2 (C3_error_block_and_flush_trigger "dir" "nb.ipynb"
                           false (set_aggregated "pending" (init empty_fs))
                           (stream_output "stdout" "1"))) eq_refl).
  - apply (proj2 (proj2 (C3_error_block_and_flush_trigger "dir" "nb.ipynb"
                           false (set_aggregated "pending" (init empty_fs))
                           (image_output "AAAA"))) "AAAA" eq_refl).
Defined.

(** *** C8 *)

Lemma process_output_base64_frame (input_dir filename : string)
    (st : state) (o : output) :
  fs (process_output input_dir filename true st o) = fs st
  ∧ fig_id (process_output input_dir filename true st o) = fig_id st.
Proof.
  unfold process_output. rewrite text_handlers, handle_error_spec. simpl.
  unfold handle_image. destruct (data_get o "image/png"); [|done].
  simpl.
  by destruct (flush_aggregated_fs
                 (set_aggregated (aggregated_output st +:+ appended_text o) st))
    as [-> ->].
Qed.

Lemma process_outputs_base64_frame (input_dir filename : string)
    (os : list output) (st : state) :
  fs (process_outputs input_dir filename true st os) = fs st
  ∧ fig_id (process_outputs input_dir filename true st os) = fig_id st.
Proof.
  revert st. induction os as [|o os IH]; intros st; [done|].
  simpl. destruct (IH (process_output input_dir filename true st o)) as [-> ->].
  apply process_output_base64_frame.
Qed.

Lemma process_markdown_frame (src : string) (st : state) :
  fs (process_markdown src st) = fs st
  ∧ fig_id (process_markdown src st) = fig_id st
  ∧ aggregated_output (process_markdown src st) = aggregated_output st.
Proof. unfold process_markdown. by destruct (is_header _). Qed.

Lemma process_cell_base64_frame (input_dir filename : string)
    (st : state) (c : cell) :
  fs (process_cell input_dir filename true st c) = fs st
  ∧ fig_id (process_cell input_dir filename true st c) = fig_id st.
Proof.
  unfold process_cell. case_bool_decide.
  - destruct (flush_aggregated_fs
                (process_outputs input_dir filename true
                   (emit (code_block (source c)) st)
                   (default [] (outputs c)))) as [-> ->].
    by destruct (process_outputs_base64_frame input_dir filename
                   (default [] (outputs c))
                   (emit (code_block (source c)) st)) as [-> ->].
  - case_bool_decide; [|done].
    by destruct (process_markdown_frame (source c) st) as (-> & -> & _).
Qed.

(** C8, as stated, fails: when text is pending, the image step does more
    than append the data-URI fragment.  After a stdout output the step also
    emits the pending text as an "Out:" block and empties the buffer. *)
Lemma C8_counterexample :
  ¬ (∀ input_dir filename st o img,
       data_get o "image/png" = Some img →
       handle_image input_dir filename true o st
       = emit ("<div class='output-cell'>" +:+ Py.nl +:+ Py.tab
               +:+ "<img src='data:image/png;base64," +:+ img +:+ "'/>"
               +:+ Py.nl +:+ "</div>") st).
Proof.
  intros H.
  specialize (H "dir" "nb.ipynb"
                (process_output "dir" "nb.ipynb" true (init empty_fs)
                   (stream_output "stdout" "1"))
                (image_output "AAAA") "AAAA" eq_refl).
  vm_compute in H. discriminate H.
Qed.

(** C8, amended: with [use_base64] set, rendering a notebook leaves the
    file system as it found it (no file is written, no directory is made)
    and does not advance the figure counter; the effects of an image payload
    are the flush of the pending text, emitted as an "Out:" block with the
    buffer emptied, followed by the data-URI fragment appended to the
    markup, and nothing else. *)
Theorem C8_base64_touches_no_files
    (input_dir filename : string) (fs0 : filesystem) (nb : notebook)
    (st : state) (o : output) :
  (extract_html_from_notebook input_dir filename true fs0 nb).2 = fs0
  ∧ fig_id (run input_dir filename true fs0 nb) = 0
  ∧ (∀ img, data_get o "image/png" = Some img →
       handle_image input_dir filename true o st
       = {| html_output :=
              html_output st
              ++ (if Py.truthy (aggregated_output st)
                  then ["<div class='output-cell'>"
                        +:+ "<div class='output-label'>"
                        +:+ Py.nl +:+ Py.tab +:+ "Out:"
                        +:+ Py.nl +:+ "</div>"
                        +:+ Py.nl +:+ Py.tab +:+ "<div class='output-code'>"
                        +:+ aggregated_output st
                        +:+ Py.nl +:+ Py.tab +:+ "</div>"
                        +:+ Py.nl +:+ "</div>"]
                  else [])
              ++ ["<div class='output-cell'>" +:+ Py.nl +:+ Py.tab
                  +:+ "<img src='data:image/png;base64," +:+ img +:+ "'/>"
                  +:+ Py.nl +:+ "</div>"];
            fig_id := fig_id st;
            aggregated_output := "";
            fs := fs st |}).
Proof.
  assert (∀ cells s,
            fs (foldl (process_cell input_dir filename true) s cells) = fs s
            ∧ fig_id (foldl (process_cell input_dir filename true) s cells)
              = fig_id s) as Hrun.
  { induction cells as [|c cells IH]; intros s; [done|].
    simpl. destruct (IH (process_cell input_dir filename true s c)) as [-> ->].
    apply process_cell_base64_frame. }
  repeat split.
  - unfold extract_html_from_notebook, run. simpl. by apply Hrun.
  - unfold run. by apply Hrun.
  - intros img H. unfold handle_image. rewrite H.
    unfold flush_aggregated, emit, set_aggregated, out_block, base64_block.
    destruct (aggregated_output st) eqn:E; simpl.
    + by rewrite E.
    + by rewrite <- app_assoc.
Qed.

Lemma C8_witness :
  handle_image "dir" "nb.ipynb" true (image_output "iVBORw0KGgo=")
    (set_aggregated "pending" (init empty_fs))
  = {| html_output :=
         ["<div class='output-cell'><div class='output-label'>"
          +:+ Py.nl +:+ Py.tab +:+ "Out:" +:+ Py.nl +:+ "</div>"
          +:+ Py.nl +:+ Py.tab +:+ "<div class='output-code'>pending"
          +:+ Py.nl +:+ Py.tab +:+ "</div>" +:+ Py.nl +:+ "</div>";
          "<div class='output-cell'>" +:+ Py.nl +:+ Py.tab
          +:+ "<img src='data:image/png;base64,iVBORw0KGgo='/>"
          +:+ Py.nl +:+ "</div>"];
       fig_id := 0;
       aggregated_output := "";
       fs := empty_fs |}.
Proof.
  etrans;
    [apply (proj2 (proj2 (C8_base64_touches_no_files "dir" "nb.ipynb"
                            empty_fs []
                            (set_aggregated "pending" (init empty_fs))
                            (image_output "iVBORw0KGgo=")))
              "iVBORw0KGgo=");
     reflexivity
    | reflexivity].
Defined.

(** *** C9 *)

Section Prepend.

Variables (input_dir filename : string) (use_base64 : bool).
Variable h : list string.

Lemma emit_prepend (frag : string) (st : state) :
  emit frag (prepend h st) = prepend h (emit frag st).
Proof. unfold emit, prepend. simpl. by rewrite app_assoc. Qed.

Lemma flush_aggregated_prepend (st : state) :
  flush_aggregated (prepend h st) = prepend h (flush_aggregated st).
Proof.
  unfold flush_aggregated. simpl.
  destruct (Py.truthy (aggregated_output st)); [|done].
  unfold set_aggregated, emit, prepend. simpl. by rewrite app_assoc.
Qed.

Lemma process_output_prepend (st : state) (o : output) :
  process_output input_dir filename use_base64 (prepend h st) o
  = prepend h (process_output input_dir filename use_base64 st o).
Proof.
  unfold process_output.
  assert (handle_stream o (handle_plain o (prepend h st))
          = prepend h (handle_stream o (handle_plain o st))) as ->.
  { by rewrite !text_handlers. }
  generalize (handle_stream o (handle_plain o st)). intros s.
  assert (handle_image input_dir filename use_base64 o (prepend h s)
          = prepend h (handle_image input_dir filename use_base64 o s)) as ->.
  { unfold handle_image. destruct (data_get o "image/png"); [|done].
    rewrite flush_aggregated_prepend.
    generalize (flush_aggregated s). intros s'.
    destruct use_base64; [apply emit_prepend|].
    simpl. destruct (os_path_exists _ _); simpl;
      unfold emit, prepend; simpl; by rewrite app_assoc. }
  generalize (handle_image input_dir filename use_base64 o s). intros s'.
  unfold handle_error. destruct (is_error o); [apply emit_prepend | done].
Qed.

Lemma process_outputs_prepend (os : list output) (st : state) :
  process_outputs input_dir filename use_base64 (prepend h st) os
  = prepend h (process_outputs input_dir filename use_base64 st os).
Proof.
  revert st. induction os as [|o os IH]; intros st; [done|].
  simpl. rewrite process_output_prepend. apply IH.
Qed.

Lemma process_cell_prepend (st : state) (c : cell) :
  process_cell input_dir filename use_base64 (prepend h st) c
  = prepend h (process_cell input_dir filename use_base64 st c).
Proof.
  unfold process_cell. case_bool_decide.
  - by rewrite emit_prepend, process_outputs_prepend, flush_aggregated_prepend.
  - case_bool_decide; [|done].
    unfold process_markdown. destruct (is_header _); apply emit_prepend.
Qed.

End Prepend.

Lemma process_cell_buffer (input_dir filename : string) (use_base64 : bool)
    (st : state) (c : cell) :
  aggregated_output st = "" →
  aggregated_output (process_cell input_dir filename use_base64 st c) = "".
Proof.
  intros H. unfold process_cell. case_bool_decide.
  - apply flush_aggregated_buffer.
  - case_bool_decide; [|done].
    by destruct (process_markdown_frame (source c) st) as (_ & _ & ->).
Qed.

Lemma run_buffer (input_dir filename : string) (use_base64 : bool)
    (fs0 : filesystem) (nb : notebook) :
  aggregated_output (run input_dir filename use_base64 fs0 nb) = "".
Proof.
  unfold run. induction nb as [|c nb IH] using rev_ind; [done|].
  rewrite foldl_snoc. by apply process_cell_buffer.
Qed.

(** C9: the aggregation buffer is empty whenever a cell starts, that is
    after every prefix of the cells; a code cell ends by emitting the text
    still pending as an "Out:" block and emptying the buffer; and the
    fragments a cell contributes are those it produces from an empty buffer,
    so no text of an earlier cell can show up in them. *)
Theorem C9_buffer_empty_between_cells
    (input_dir filename : string) (use_base64 : bool)
    (fs0 : filesystem) (nb : notebook) :
  (∀ i, aggregated_output
          (run input_dir filename use_base64 fs0 (take i nb)) = "")
  ∧ (∀ st c, cell_type c = "code" →
       let st' :=
         process_outputs input_dir filename use_base64
           (emit (code_block (source c)) st) (default [] (outputs c)) in
       aggregated_output (process_cell input_dir filename use_base64 st c)
       = ""
       ∧ html_output (process_cell input_dir filename use_base64 st c)
         = html_output st'
           ++ (if Py.truthy (aggregated_output st')
               then [out_block (aggregated_output st')] else []))
  ∧ (∀ cells c,
       let before := run input_dir filename use_base64 fs0 cells in
       html_output (run input_dir filename use_base64 fs0 (cells ++ [c]))
       = html_output before
         ++ html_output
              (process_cell input_dir filename use_base64
                 (cell_start (fig_id before) (fs before)) c)).
Proof.
  repeat split.
  - intros i. apply run_buffer.
  - unfold process_cell. rewrite bool_decide_eq_true_2 by done.
    apply flush_aggregated_buffer.
  - unfold process_cell. rewrite bool_decide_eq_true_2 by done.
    apply flush_aggregated_html.
  - intros cells c before. unfold run. rewrite foldl_snoc.
    fold (run input_dir filename use_base64 fs0 cells). fold before.
    assert (before
            = prepend (html_output before)
                (cell_start (fig_id before) (fs before))) as Hb.
    { unfold prepend, cell_start. simpl. rewrite app_nil_r.
      pose proof (run_buffer input_dir filename use_base64 fs0 cells) as Ha.
      fold before in Ha. destruct before. simpl in *. by rewrite Ha. }
    rewrite Hb at 1. by rewrite process_cell_prepend.
Qed.

Lemma C9_witness :
  let c := code_cell "print(1)" [stream_output "stdout" "1"] in
  let st := init empty_fs in
  let st' :=
    process_outputs "dir" "nb.ipynb" false
      (emit (code_block (source c)) st) (default [] (outputs c)) in
  aggregated_output (process_cell "dir" "nb.ipynb" false st c) = ""
  ∧ html_output (process_cell "dir" "nb.ipynb" false st c)
    = html_output st'
      ++ (if Py.truthy (aggregated_output st')
          then [out_block (aggregated_output st')] else []).
Proof.
  apply (proj1 (proj2 (C9_buffer_empty_between_cells "dir" "nb.ipynb" false
                         empty_fs []))
           (init empty_fs)
           (code_cell "print(1)" [stream_output "stdout" "1"])).
  reflexivity.
Defined.

(** *** C4 *)

(** The name the renderer gives to a figure differs from the two-digit
    padded name at the number ten only. *)
Lemma img_filename_of_padded (n : nat) :
  n ≠ 10 → img_filename_of n = Spec.padded_name n.
Proof.
  intros Hn. unfold img_filename_of, Spec.padded_name.
  destruct (Nat.leb_spec n 10), (Nat.ltb_spec n 10); try done; lia.
Qed.

(** With file output, every image advances the counter by one and is
    written under the name of the new count. *)
Lemma handle_image_numbering (input_dir filename : string)
    (o : output) (st : state) (img : string) :
  data_get o "image/png" = Some img →
  let st' := handle_image input_dir filename false o st in
  fig_id st' = fig_id st + 1
  ∧ written_files (fs st')
    = written_files (fs st)
      ++ [os_path_join (input_dir +:+ delim +:+ output_folder_of filename)
            (img_filename_of (fig_id st + 1))].
Proof.
  intros H. unfold handle_image. rewrite H. simpl.
  destruct (flush_aggregated_fs st) as [Hw Hf].
  destruct (os_path_exists _ _); simpl; rewrite Hf, Hw;
    (split; [done|]); unfold written_files; simpl;
    rewrite !omap_app; simpl; by rewrite ?app_nil_r.
Qed.

Lemma process_output_numbering (input_dir filename : string)
    (o : output) (st : state) (img : string) :
  data_get o "image/png" = Some img →
  let st' := process_output input_dir filename false st o in
  fig_id st' = fig_id st + 1
  ∧ written_files (fs st')
    = written_files (fs st)
      ++ [os_path_join (input_dir +:+ delim +:+ output_folder_of filename)
            (img_filename_of (fig_id st + 1))].
Proof.
  intros H. unfold process_output.
  rewrite text_handlers, handle_error_spec. simpl.
  apply (handle_image_numbering input_dir filename o
           (set_aggregated (aggregated_output st +:+ appended_text o) st)
           img H).
Qed.

(** The images of a run of outputs that all carry one are written, in
    order, under the names of the counts that follow the current one. *)
Lemma image_files_are_numbered (input_dir filename : string)
    (os : list output) :
  Forall (λ o, is_Some (data_get o "image/png")) os →
  ∀ st,
    let st' := process_outputs input_dir filename false st os in
    fig_id st' = fig_id st + length os
    ∧ written_files (fs st')
      = written_files (fs st)
        ++ ((λ k, os_path_join
                    (input_dir +:+ delim +:+ output_folder_of filename)
                    (img_filename_of (fig_id st + k)))
              <$> seq 1 (length os)).
Proof.
  induction 1 as [|o os [img Ho] Hos IH]; intros st; simpl.
  - split; [lia | by rewrite app_nil_r].
  - destruct (process_output_numbering input_dir filename o st img Ho)
      as [Hf Hw].
    destruct (IH (process_output input_dir filename false st o)) as [Hf' Hw'].
    unfold process_outputs in *. rewrite Hf', Hw', Hf, Hw. split; [lia|].
    rewrite <- app_assoc. f_equal. simpl. f_equal.
    rewrite <- (fmap_S_seq 1), <- list_fmap_compose.
    apply list_fmap_ext. intros _ k _. simpl. do 2 f_equal. lia.
Qed.

(** C4 (two-digit numbering with the tenth file named fig_10.png) does not
    hold of the code at the tenth image: of eleven images rendered with file
    output, the first nine are written as fig_01.png to fig_09.png and the
    eleventh as fig_11.png, but the tenth is written as fig_010.png. *)
Theorem C4_tenth_image_is_fig_010 :
  written_files
    (extract_html_from_notebook "dir" "nb.ipynb" false empty_fs
       [code_cell "plots()" (replicate 11 (image_output "AAAA"))]).2
  = ["dir/output_nb_nb/fig_01.png"; "dir/output_nb_nb/fig_02.png";
     "dir/output_nb_nb/fig_03.png"; "dir/output_nb_nb/fig_04.png";
     "dir/output_nb_nb/fig_05.png"; "dir/output_nb_nb/fig_06.png";
     "dir/output_nb_nb/fig_07.png"; "dir/output_nb_nb/fig_08.png";
     "dir/output_nb_nb/fig_09.png"; "dir/output_nb_nb/fig_010.png";
     "dir/output_nb_nb/fig_11.png"]
  ∧ img_filename_of 10 = "fig_010.png"
  ∧ Spec.padded_name 10 = "fig_10.png".
Proof. vm_compute. done. Qed.

(** *** C2 *)

(** C2 (every angle bracket of a cell source or textual output is escaped)
    does not hold of the code for code cells and error outputs: the source
    of a code cell and the traceback of an error output reach the markup as
    they are, while the same text goes through [html.escape] when it is a
    markdown source, a text/plain payload or a stdout stream. *)
Theorem C2_code_source_is_not_escaped :
  (extract_html_from_notebook "dir" "nb.ipynb" false empty_fs
     [code_cell "a<b" [error_output ["<module>"]]]).1
  = "<div class='code-cell'>" +:+ Py.nl +:+ Py.tab
    +:+ "<code class='language-python'>" +:+ Py.nl +:+ Py.tab +:+ Py.tab
    +:+ "a<b" +:+ Py.nl +:+ Py.tab +:+ "</code>" +:+ Py.nl +:+ "</div>"
    +:+ Py.nl
    +:+ "<div class='output-cell error'>" +:+ Py.nl +:+ Py.tab +:+ "<pre>"
    +:+ Py.nl +:+ Py.tab +:+ Py.tab +:+ "<module>" +:+ Py.nl +:+ Py.tab
    +:+ "</pre>" +:+ Py.nl +:+ "</div>"
  ∧ (extract_html_from_notebook "dir" "nb.ipynb" false empty_fs
       [markdown_cell "a<b"]).1
    = "<div class='markdown-cell'>" +:+ Py.nl +:+ Py.tab +:+ "a&lt;b"
      +:+ Py.nl +:+ "</div>"
  ∧ Py.html_escape "a<b" = "a&lt;b".
Proof. vm_compute. done. Qed.

(** *** C5 *)

Lemma is_header_spec (mc : string) :
  is_header mc = true
  ↔ ∃ l, content_lines mc = [l] ∧ ∃ r, l = "#" +:+ r.
Proof.
  unfold is_header. split.
  - destruct (content_lines mc) as [|l [|l' ls]]; try done.
    intros H. exists l. split; [done|]. by apply startswith_spec.
  - intros (l & -> & Hr). by apply startswith_spec.
Qed.

(** *** C6 *)

(** C6, as stated, fails: for the heading line "# A # B" the text after
    the first separator is "A # B", and the renderer emits "B". *)
Lemma C6_counterexample :
  ¬ (∀ src st,
       is_header (Py.html_escape src) = true →
       process_markdown src st
       = emit (heading_block (Py.count "#" (Py.html_escape src))
                 (Spec.after_first "# " (Py.html_escape src))) st).
Proof.
  intros H. specialize (H "# A # B" (init empty_fs) eq_refl).
  vm_compute in H. discriminate H.
Qed.

(** C6, amended: the text of a heading cell is what follows the last
    occurrence of "# " in the escaped source, and the whole escaped source
    when "# " does not occur in it. *)
Theorem C6_heading_text_after_last_separator (src : string) (st : state) :
  let mc := Py.html_escape src in
  is_header mc = true →
  ∃ t,
    process_markdown src st = emit (heading_block (Py.count "#" mc) t) st
    ∧ ((¬ Spec.occurs "# " mc ∧ t = mc)
       ∨ ∃ pre, mc = pre +:+ "# " +:+ t
                ∧ ∀ a b, mc = a +:+ "# " +:+ b →
                         String.length a ≤ String.length pre).
Proof.
  intros mc Hh. exists (Py.last_item (Py.split "# " mc)). split.
  - unfold process_markdown. fold mc. by rewrite Hh.
  - destruct (split_last "# " mc) as [Hno|(pre & Hpre & Hno)]; [done|by left|].
    right. exists pre. split; [done|].
    intros a b Hab.
    apply (hash_space_last pre (Py.last_item (Py.split "# " mc)) a b);
      [|done].
    by rewrite <- Hpre.
Qed.

Lemma C6_witness :
  ∃ t,
    process_markdown "# A # B" (init empty_fs)
    = emit (heading_block (Py.count "#" (Py.html_escape "# A # B")) t)
        (init empty_fs)
    ∧ ((¬ Spec.occurs "# " (Py.html_escape "# A # B")
        ∧ t = Py.html_escape "# A # B")
       ∨ ∃ pre, Py.html_escape "# A # B" = pre +:+ "# " +:+ t
                ∧ ∀ a b, Py.html_escape "# A # B" = a +:+ "# " +:+ b →
                         String.length a ≤ String.length pre).
Proof.
  apply (C6_heading_text_after_last_separator "# A # B" (init empty_fs)).
  reflexivity.
Defined.

(** ** The hierarchy extractor *)

Import Hierarchy.

(** *** The contents of the sections in the store *)

Lemma add_section_contents (level : nat) (title cont : string)
    (st : Hierarchy.state) :
  contents <$> store (add_section level title cont st)
  = (contents <$> store st) ++ [cont].
Proof.
  unfold add_section.
  destruct (pop_while level (stack st)) as [|[p l] stk]; simpl.
  - by rewrite fmap_app.
  - destruct ((store st ++ [{| contents := cont; sections := None |}]) !! p)
      as [parent|] eqn:E; simpl.
    + rewrite list_fmap_insert. simpl.
      rewrite list_insert_id; [by rewrite fmap_app|].
      by rewrite list_lookup_fmap, E.
    + by rewrite fmap_app.
Qed.

Lemma step_Some (st st' : Hierarchy.state) (t : tag) :
  step st t = Some st' →
  ∃ level, tag_level t = Some level
           ∧ st' = add_section level (tag_title t) (tag_contents t) st.
Proof.
  unfold step. destruct (tag_level t) as [level|]; simpl; [|done].
  intros [= <-]. eauto.
Qed.

Lemma scan_contents (ts : list tag) :
  ∀ st st', scan st ts = Some st' →
    contents <$> store st' = (contents <$> store st) ++ (tag_contents <$> ts).
Proof.
  induction ts as [|t ts IH]; intros st st' H; simpl in H.
  - injection H as <-. by rewrite app_nil_r.
  - destruct (step st t) as [st1|] eqn:E; simpl in H; [|done].
    apply step_Some in E as (level & _ & ->).
    rewrite (IH _ _ H), add_section_contents. by rewrite <- app_assoc.
Qed.

(** *** The store stays well formed, and reading it out succeeds *)

Lemma dict_set_Forall {V} (P : string * V → Prop) (k : string) (v : V)
    (d : list (string * V)) :
  Forall P d → P (k, v) → Forall P (dict_set k v d).
Proof.
  intros Hd Hv. induction Hd as [|[k' v'] d Hx Hd IH]; simpl.
  - by constructor.
  - case_decide; constructor; auto.
Qed.

Lemma pop_while_Forall (P : nat * nat → Prop) (level : nat)
    (stk : list (nat * nat)) :
  Forall P stk → Forall P (pop_while level stk).
Proof.
  induction 1 as [|[r l] stk Hx Hstk IH]; simpl; [done|].
  destruct (level <=? l); [done | by constructor].
Qed.

Lemma wf_init : wf init.
Proof. split; simpl; [intros p o d H; by destruct p | done | done]. Qed.

Lemma add_section_length (level : nat) (title cont : string)
    (st : Hierarchy.state) :
  length (store (add_section level title cont st)) = S (length (store st)).
Proof.
  rewrite <- (length_fmap contents), add_section_contents.
  rewrite length_app, length_fmap. simpl. lia.
Qed.

Lemma add_section_wf (level : nat) (title cont : string)
    (st : Hierarchy.state) :
  wf st → wf (add_section level title cont st).
Proof.
  intros [Hs Hr Hk].
  pose proof (add_section_length level title cont st) as Hlen.
  pose proof (pop_while_Forall _ level _ Hk) as Hpop.
  assert (∀ p o d,
            (store st ++ [{| contents := cont; sections := None |}]) !! p
            = Some o →
            sections o = Some d →
            Forall (λ kv : string * nat, p < kv.2 < S (length (store st))) d)
    as Hs1.
  { intros p o d Hp Hd.
    destruct (decide (p < length (store st))) as [Hlt|Hge].
    - rewrite lookup_app_l in Hp by done.
      eapply Forall_impl; [by eapply Hs|]. simpl. lia.
    - rewrite lookup_app_r in Hp by lia.
      destruct (p - length (store st)); simplify_eq/=. }
  unfold add_section in *.
  destruct (pop_while level (stack st)) as [|[p l] stk] eqn:Epop.
  - split; simpl in *; rewrite ?Hlen.
    + done.
    + apply dict_set_Forall; simpl; [|lia].
      eapply Forall_impl; [done|]. simpl. lia.
    + constructor; [simpl; lia|done].
  - apply Forall_cons in Hpop as [Hp Hstk]. simpl in Hp.
    destruct ((store st ++ [{| contents := cont; sections := None |}]) !! p)
      as [parent|] eqn:E.
    + split; simpl in *; rewrite ?Hlen.
      * intros q o d Hq Hd.
        destruct (decide (q = p)) as [->|Hne].
        -- rewrite list_lookup_insert_eq in Hq
             by (rewrite length_app; simpl; lia).
           injection Hq as <-. simpl in Hd. injection Hd as <-.
           apply dict_set_Forall; simpl; [|lia].
           destruct (sections parent) as [d|] eqn:Ed; simpl; [|done].
           by eapply Hs1.
        -- rewrite list_lookup_insert_ne in Hq by done. by eapply Hs1.
      * eapply Forall_impl; [done|]. simpl. lia.
      * constructor; [simpl; lia|].
        constructor; [simpl; lia|].
        eapply Forall_impl; [done|]. simpl. lia.
    + split; simpl in *; rewrite ?Hlen.
      * done.
      * eapply Forall_impl; [done|]. simpl. lia.
      * constructor; [simpl; lia|].
        constructor; [simpl; lia|].
        eapply Forall_impl; [done|]. simpl. lia.
Qed.

Lemma scan_wf (ts : list tag) :
  ∀ st st', wf st → scan st ts = Some st' → wf st'.
Proof.
  induction ts as [|t ts IH]; intros st st' Hwf H; simpl in H.
  - by injection H as <-.
  - destruct (step st t) as [st1|] eqn:E; simpl in H; [|done].
    apply step_Some in E as (level & _ & ->).
    eapply IH; [|done]. by apply add_section_wf.
Qed.

Lemma read_section_total (st : Hierarchy.state) :
  wf st →
  ∀ fuel r, r < length (store st) → length (store st) - r ≤ fuel →
    is_Some (read_section fuel (store st) r).
Proof.
  intros [Hs _ _]. induction fuel as [|f IH]; intros r Hr Hf; [lia|].
  simpl. destruct (lookup_lt_is_Some_2 (store st) r Hr) as [o Ho].
  rewrite Ho. simpl. destruct (sections o) as [d|] eqn:Ed; [|done].
  assert (is_Some
            (mapM (λ kv : string * nat,
                     s ← read_section f (store st) kv.2; Some (kv.1, s)) d))
    as [kids ->].
  { apply mapM_is_Some. eapply Forall_impl; [by eapply Hs|].
    intros [k r'] Hr'. simpl in *.
    destruct (IH r') as [s ->]; [lia..|]. done. }
  done.
Qed.

Lemma read_dict_total (st : Hierarchy.state) :
  wf st → is_Some (read_dict (store st) (root st)).
Proof.
  intros Hwf. unfold read_dict. apply mapM_is_Some.
  eapply Forall_impl; [apply (wf_root _ Hwf)|].
  intros [k r] Hr. simpl in *.
  destruct (read_section_total st Hwf (length (store st)) r) as [s ->];
    [lia..|]. done.
Qed.

Lemma scan_is_Some (ts : list tag) :
  ∀ st, is_Some (scan st ts) ↔ Forall (λ t, is_Some (tag_level t)) ts.
Proof.
  induction ts as [|t ts IH]; intros st; simpl.
  - split; [by constructor | eauto].
  - rewrite Forall_cons. unfold step.
    destruct (tag_level t) as [level|]; simpl.
    + rewrite IH. split; [eauto | by intros [_ ?]].
    + split; [by intros [? ?] | by intros [[? ?] _]].
Qed.

(** The extractor returns a hierarchy exactly when [int] accepts the
    second character of the name of every tag found. *)
Lemma html_to_hierarchical_json_is_Some (soup : list node)
    (filename : string) :
  is_Some (html_to_hierarchical_json soup filename)
  ↔ Forall (λ t, is_Some (tag_level t)) (find_all soup).
Proof.
  unfold html_to_hierarchical_json. rewrite <- (scan_is_Some _ init).
  destruct (scan init (find_all soup)) as [st|] eqn:E; simpl.
  - destruct (read_dict_total st) as [d ->].
    + by eapply scan_wf; [apply wf_init|].
    + simpl. split; eauto.
  - split; by intros [? ?].
Qed.

(** *** C1 *)

(** C1, as stated, fails: a code cell whose source is the markup
    [<h1>A</h1><p>x</p><h2>B</h2><p>y</p>] is rendered with that markup
    inside its code block, and the paragraph behind the second heading is
    part of the contents of the first. *)
Lemma C1_counterexample :
  ¬ (∀ soup st i t o,
       scan init (find_all soup) = Some st →
       find_all soup !! i = Some t →
       store st !! i = Some o →
       contents o = Spec.contents_upto_next_heading t).
Proof.
  intros H.
  specialize (H [rendered_code_cell]
                (add_section 2 "B" "<h2>B</h2><p>y</p>"
                   (add_section 1 "A" "<h1>A</h1><p>x</p><p>y</p>" init))
                0
                {| tag_node := heading "1" "A";
                   next_siblings :=
                     [para "x"; heading "2" "B"; para "y";
                      Text (Py.nl +:+ Py.tab)] |}
                {| contents := "<h1>A</h1><p>x</p><p>y</p>";
                   sections := Some [("B", 1)] |}
                eq_refl eq_refl eq_refl).
  vm_compute in H. discriminate H.
Qed.

(** C1, amended: the contents of the section of a heading are the markup of
    the heading followed by the markup of every later sibling element whose
    name does not start like a heading name, wherever it stands: the sibling
    headings are left out, the elements behind them are not. *)
Theorem C1_section_contents
    (soup : list node) (st : Hierarchy.state) (i : nat) (t : tag) :
  scan init (find_all soup) = Some st →
  find_all soup !! i = Some t →
  ∃ o, store st !! i = Some o
       ∧ contents o
         = node_str (tag_node t)
           +:+ Py.concat
                 (node_str <$>
                    List.filter
                      (λ sibling, negb (re_match_h (node_name sibling)))
                      (List.filter is_tag (next_siblings t))).
Proof.
  intros Hscan Ht. apply scan_contents in Hscan. simpl in Hscan.
  assert ((contents <$> store st) !! i = Some (tag_contents t)) as Hi.
  { rewrite Hscan, list_lookup_fmap, Ht. done. }
  rewrite list_lookup_fmap in Hi.
  destruct (store st !! i) as [o|]; simpl in Hi; [|done].
  injection Hi as Hi. exists o. by split.
Qed.

Lemma C1_witness :
  ∃ o, store (add_section 2 "B" "<h2>B</h2><p>y</p>"
                (add_section 1 "A" "<h1>A</h1><p>x</p><p>y</p>" init)) !! 0
       = Some o
       ∧ contents o
         = node_str (heading "1" "A")
           +:+ Py.concat
                 (node_str <$>
                    List.filter
                      (λ sibling, negb (re_match_h (node_name sibling)))
                      (List.filter is_tag
                         [para "x"; heading "2" "B"; para "y"])).
Proof.
  apply (C1_section_contents
           [heading "1" "A"; para "x"; heading "2" "B"; para "y"]
           (add_section 2 "B" "<h2>B</h2><p>y</p>"
              (add_section 1 "A" "<h1>A</h1><p>x</p><p>y</p>" init))
           0
           {| tag_node := heading "1" "A";
              next_siblings := [para "x"; heading "2" "B"; para "y"] |});
    reflexivity.
Defined.

(** *** C7 *)

(** C7: when the headings found are, in document order, of levels 1, 2, 3, 2
    with titles A, B, C, D, the hierarchy has the single top-level section A,
    whose sections are B and D in this order; C is the only section of B,
    and C and D have no sections. *)
Theorem C7_nesting_1232 (soup : list node) (filename : string) :
  (λ t, (tag_level t, tag_title t)) <$> find_all soup
  = [(Some 1, "A"); (Some 2, "B"); (Some 3, "C"); (Some 2, "D")] →
  ∃ tA tB tC tD,
    find_all soup = [tA; tB; tC; tD]
    ∧ html_to_hierarchical_json soup filename
      = Some (filename,
              [("A",
                JSection (tag_contents tA)
                  (Some
                     [("B",
                       JSection (tag_contents tB)
                         (Some [("C", JSection (tag_contents tC) None)]));
                      ("D", JSection (tag_contents tD) None)]))]).
Proof.
  intros H. unfold html_to_hierarchical_json.
  destruct (find_all soup) as [|tA [|tB [|tC [|tD [|? ?]]]]]; try done.
  simpl in H.
  injection H as HlA HtA HlB HtB HlC HtC HlD HtD.
  exists tA, tB, tC, tD. split; [done|].
  simpl. unfold step.
  rewrite HlA, HtA. simpl. rewrite HlB, HtB. simpl.
  rewrite HlC, HtC. simpl. rewrite HlD, HtD. reflexivity.
Qed.

Lemma C7_witness :
  ∃ tA tB tC tD,
    find_all [rendered_heading "1" "A"; para "a"; rendered_heading "2" "B";
              rendered_heading "3" "C"; para "c"; rendered_heading "2" "D"]
    = [tA; tB; tC; tD]
    ∧ html_to_hierarchical_json
        [rendered_heading "1" "A"; para "a"; rendered_heading "2" "B";
         rendered_heading "3" "C"; para "c"; rendered_heading "2" "D"]
        "nb.ipynb"
      = Some ("nb.ipynb",
              [("A",
                JSection (tag_contents tA)
                  (Some
                     [("B",
                       JSection (tag_contents tB)
                         (Some [("C", JSection (tag_contents tC) None)]));
                      ("D", JSection (tag_contents tD) None)]))]).
Proof.
  apply (C7_nesting_1232
           [rendered_heading "1" "A"; para "a"; rendered_heading "2" "B";
            rendered_heading "3" "C"; para "c"; rendered_heading "2" "D"]
           "nb.ipynb").
  reflexivity.
Defined.

(** * Further properties *)

Import Notions.

(** ** The renderer: what reaches the markup *)

Lemma no_angle_app (a b : string) :
  no_angle a → no_angle b → no_angle (a +:+ b).
Proof.
  intros [Ha1 Ha2] [Hb1 Hb2]. unfold no_angle.
  rewrite !count_char_app. lia.
Qed.

Lemma no_angle_appended_text (o : output) : no_angle (appended_text o).
Proof.
  unfold appended_text. apply no_angle_app.
  - destruct (data_get o "text/plain") as [t|]; [|done].
    repeat (apply no_angle_app; [done|]). apply html_escape_no_angle.
  - destruct (is_stdout_stream o); [|done].
    repeat (apply no_angle_app; [done|]). apply html_escape_no_angle.
Qed.

Lemma process_output_buffer (input_dir filename : string) (use_base64 : bool)
    (st : Renderer.state) (o : output) :
  aggregated_output (process_output input_dir filename use_base64 st o)
  = match data_get o "image/png" with
    | Some _ => ""
    | None => aggregated_output st +:+ appended_text o
    end.
Proof.
  unfold process_output. rewrite text_handlers, handle_error_spec. simpl.
  destruct (data_get o "image/png") as [img|] eqn:E.
  - by destruct (handle_image_some input_dir filename use_base64 o
                   (set_aggregated (aggregated_output st +:+ appended_text o)
                      st) img E) as [-> _].
  - by rewrite handle_image_none.
Qed.

Lemma process_outputs_no_angle (input_dir filename : string)
    (use_base64 : bool) (os : list output) :
  ∀ st, no_angle (aggregated_output st) →
    no_angle
      (aggregated_output
         (process_outputs input_dir filename use_base64 st os)).
Proof.
  induction os as [|o os IH]; intros st H; [done|].
  simpl. apply IH. rewrite process_output_buffer.
  destruct (data_get o "image/png"); [done|].
  apply no_angle_app; [done | apply no_angle_appended_text].
Qed.

Lemma count_char_last_piece (c : ascii) (sep s : string) :
  sep ≠ "" →
  Spec.count_char c (Py.last_item (Py.split sep s)) ≤ Spec.count_char c s.
Proof.
  intros Hsep.
  destruct (split_last sep s Hsep) as [[_ ->]|(pre & Hpre & _)]; [done|].
  rewrite Hpre at 2. rewrite !count_char_app. lia.
Qed.

(** The body of every "Out:" block is free of angle brackets: whatever the
    cells rendered before and the outputs of the current code cell processed
    so far, the aggregation buffer holds neither "<" nor ">".  The same is
    true of the text put into a markdown block and into a heading. *)
Theorem X_buffer_and_markdown_text_hold_no_angle_brackets
    (input_dir filename : string) (use_base64 : bool) (fs0 : filesystem)
    (cells : notebook) (src : string) (outs : list output) (i : nat) :
  no_angle
    (aggregated_output
       (process_outputs input_dir filename use_base64
          (emit (code_block src)
             (run input_dir filename use_base64 fs0 cells))
          (take i outs)))
  ∧ no_angle (Py.html_escape src)
  ∧ no_angle (Py.last_item (Py.split "# " (Py.html_escape src))).
Proof.
  split; [|split].
  - apply process_outputs_no_angle. simpl. by rewrite run_buffer.
  - apply html_escape_no_angle.
  - destruct (html_escape_no_angle src) as [H1 H2].
    pose proof (count_char_last_piece "<" "# " (Py.html_escape src)
                  ltac:(done)).
    pose proof (count_char_last_piece ">" "# " (Py.html_escape src)
                  ltac:(done)).
    unfold no_angle. split; lia.
Qed.

(** ** The renderer: a code cell without images *)

Lemma process_outputs_no_image (input_dir filename : string)
    (use_base64 : bool) (os : list output) :
  Forall (λ o, data_get o "image/png" = None) os →
  ∀ st,
    process_outputs input_dir filename use_base64 st os
    = {| html_output := html_output st ++ (os ≫= error_fragments);
         fig_id := fig_id st;
         aggregated_output :=
           aggregated_output st +:+ Py.concat (appended_text <$> os);
         fs := fs st |}.
Proof.
  induction 1 as [|o os Ho Hos IH]; intros st.
  - destruct st. simpl. by rewrite app_nil_r, app_empty_r.
  - unfold process_outputs in *. simpl. rewrite IH.
    unfold process_output.
    rewrite text_handlers, handle_image_none, handle_error_spec by done.
    simpl. by rewrite <- app_assoc, app_assoc_str.
Qed.

(** When no output of a code cell carries an image, the cell is rendered as
    its code block, then the error blocks of its outputs, then one "Out:"
    block that merges the text of all its outputs (absent when there is no
    text): the text printed before an error comes out behind the error. *)
Theorem X_cell_without_images
    (input_dir filename : string) (use_base64 : bool)
    (st : Renderer.state) (c : cell) :
  cell_type c = "code" →
  aggregated_output st = "" →
  Forall (λ o, data_get o "image/png" = None) (default [] (outputs c)) →
  let os := default [] (outputs c) in
  let merged := Py.concat (appended_text <$> os) in
  process_cell input_dir filename use_base64 st c
  = {| html_output :=
         html_output st ++ [code_block (source c)]
         ++ (os ≫= error_fragments)
         ++ (if Py.truthy merged then [out_block merged] else []);
       fig_id := fig_id st;
       aggregated_output := "";
       fs := fs st |}.
Proof.
  intros Hty Hagg Hos os merged. unfold process_cell.
  rewrite bool_decide_eq_true_2 by done.
  rewrite process_outputs_no_image by done. simpl. rewrite Hagg.
  rewrite app_nil_str. fold os. fold merged.
  unfold flush_aggregated. simpl.
  destruct (Py.truthy merged) eqn:Et; unfold set_aggregated, emit; simpl.
  - f_equal. by rewrite <- !app_assoc.
  - assert (merged = "") as -> by (by destruct merged).
    f_equal. by rewrite app_nil_r, <- !app_assoc.
Qed.

Lemma X_cell_without_images_witness :
  html_output
    (process_cell "dir" "nb.ipynb" false (Renderer.init empty_fs)
       (code_cell "print(1); 1/0"
          [stream_output "stdout" "1"; error_output ["ZeroDivisionError"]]))
  = [code_block "print(1); 1/0";
     error_block "ZeroDivisionError";
     out_block (Py.nl +:+ Py.tab +:+ Py.tab +:+ "1")].
Proof.
  rewrite (X_cell_without_images "dir" "nb.ipynb" false (Renderer.init empty_fs)
             (code_cell "print(1); 1/0"
                [stream_output "stdout" "1";
                 error_output ["ZeroDivisionError"]]));
    [reflexivity | reflexivity | reflexivity |].
  repeat constructor.
Defined.

(** ** The renderer: the files it writes *)

Lemma image_writes_app (dir : string) (imgs1 imgs2 : list string) :
  ∀ fig,
    image_writes dir fig (imgs1 ++ imgs2)
    = image_writes dir fig imgs1
      ++ image_writes dir (fig + length imgs1) imgs2.
Proof.
  induction imgs1 as [|img imgs1 IH]; intros fig; simpl.
  - by rewrite Nat.add_0_r.
  - rewrite IH. do 3 f_equal. lia.
Qed.

Lemma saved_refl (dir : string) (st st' : Renderer.state) :
  fs st' = fs st → fig_id st' = fig_id st → saved dir st st' [].
Proof.
  intros Hw Hf. unfold saved, image_events. simpl.
  rewrite Hw, Hf, app_nil_r. split; [done | split; [lia | done]].
Qed.

Lemma saved_trans (dir : string) (st st1 st2 : Renderer.state)
    (imgs1 imgs2 : list string) :
  saved dir st st1 imgs1 → saved dir st1 st2 imgs2 →
  saved dir st st2 (imgs1 ++ imgs2).
Proof.
  intros (Hl1 & Hf1 & He1) (Hl2 & Hf2 & He2). unfold saved in *.
  rewrite Hl2, Hl1, Hf2, Hf1, He2, He1, length_app.
  unfold image_events. rewrite image_writes_app.
  destruct imgs1 as [|a imgs1]; simpl.
  - rewrite !app_nil_r, Nat.add_0_r. split; [done | split; [lia | done]].
  - split; [|split; [lia | by destruct imgs2]].
    rewrite <- !app_assoc. f_equal. simpl. f_equal.
    destruct imgs2; simpl; by rewrite ?app_nil_r.
Qed.

Lemma handle_image_saved (input_dir filename : string) (o : output)
    (st : Renderer.state) :
  saved (input_dir +:+ delim +:+ output_folder_of filename) st
    (handle_image input_dir filename false o st) (output_images [o]).
Proof.
  unfold output_images, handle_image. simpl.
  destruct (data_get o "image/png") as [img|]; simpl; [|by apply saved_refl].
  destruct (flush_aggregated_fs st) as [Hw Hf].
  unfold saved, image_events. simpl. rewrite ?Hf, ?Hw.
  destruct (os_path_exists (fs st)
              (input_dir +:+ delim +:+ output_folder_of filename)) eqn:E;
    simpl; rewrite ?Hf, ?Hw.
  - split; [done | split; [done|]].
    unfold os_path_exists in *. simpl.
    apply bool_decide_eq_true in E. apply bool_decide_eq_true. set_solver.
  - split; [by rewrite <- app_assoc | split; [done|]].
    unfold os_path_exists. simpl. apply bool_decide_eq_true. set_solver.
Qed.

Lemma process_output_saved (input_dir filename : string) (o : output)
    (st : Renderer.state) :
  saved (input_dir +:+ delim +:+ output_folder_of filename) st
    (process_output input_dir filename false st o) (output_images [o]).
Proof.
  unfold process_output. rewrite text_handlers, handle_error_spec.
  pose proof (handle_image_saved input_dir filename o
                (set_aggregated (aggregated_output st +:+ appended_text o) st))
    as H.
  unfold saved in *. simpl in *. exact H.
Qed.

Lemma output_images_cons (o : output) (os : list output) :
  output_images (o :: os) = output_images [o] ++ output_images os.
Proof. unfold output_images. simpl. by destruct (data_get o "image/png"). Qed.

Lemma process_outputs_saved (input_dir filename : string) (os : list output) :
  ∀ st,
    saved (input_dir +:+ delim +:+ output_folder_of filename) st
      (process_outputs input_dir filename false st os) (output_images os).
Proof.
  induction os as [|o os IH]; intros st.
  - by apply saved_refl.
  - rewrite output_images_cons. unfold process_outputs in *. simpl.
    eapply saved_trans; [apply process_output_saved | apply IH].
Qed.

Lemma process_cell_saved (input_dir filename : string) (c : cell)
    (st : Renderer.state) :
  saved (input_dir +:+ delim +:+ output_folder_of filename) st
    (process_cell input_dir filename false st c) (cell_images c).
Proof.
  unfold process_cell, cell_images. case_bool_decide.
  - pose proof (process_outputs_saved input_dir filename
                  (default [] (outputs c)) (emit (code_block (source c)) st))
      as Hsv.
    destruct (flush_aggregated_fs
                (process_outputs input_dir filename false
                   (emit (code_block (source c)) st)
                   (default [] (outputs c)))) as [Hw Hf].
    unfold saved in *. rewrite Hw, Hf. exact Hsv.
  - case_bool_decide; [|by apply saved_refl].
    destruct (process_markdown_frame (source c) st) as (Hw & Hf & _).
    by apply saved_refl.
Qed.

Lemma foldl_process_cell_saved (input_dir filename : string) (nb : notebook) :
  ∀ st,
    saved (input_dir +:+ delim +:+ output_folder_of filename) st
      (foldl (process_cell input_dir filename false) st nb)
      (notebook_images nb).
Proof.
  induction nb as [|c nb IH]; intros st.
  - by apply saved_refl.
  - unfold notebook_images. simpl.
    eapply saved_trans; [apply process_cell_saved | apply IH].
Qed.

(** *** With the exception of the decoder *)

Lemma forallb_accepts (l : list string) :
  forallb Base64.b64decode_accepts l = true
  ↔ Forall (λ img, Base64.b64decode_accepts img = true) l.
Proof.
  induction l as [|x l IH]; simpl; [split; [constructor | done]|].
  rewrite andb_true_iff, Forall_cons, IH. done.
Qed.

Lemma checked_handle_image (input_dir filename : string) (o : output)
    (st : Renderer.state) :
  Checked.handle_image input_dir filename false o st
  = if forallb Base64.b64decode_accepts (output_images [o])
    then Some (handle_image input_dir filename false o st)
    else None.
Proof.
  unfold Checked.handle_image, handle_image, output_images. simpl.
  destruct (data_get o "image/png") as [img|]; [|done]. simpl.
  unfold Checked.save_plot_as_image. rewrite andb_true_r.
  by destruct (Base64.b64decode_accepts img).
Qed.

Lemma checked_process_output (input_dir filename : string) (o : output)
    (st : Renderer.state) :
  Checked.process_output input_dir filename false st o
  = if forallb Base64.b64decode_accepts (output_images [o])
    then Some (process_output input_dir filename false st o)
    else None.
Proof.
  unfold Checked.process_output, process_output.
  rewrite checked_handle_image.
  by destruct (forallb _ _).
Qed.

Lemma checked_process_outputs (input_dir filename : string)
    (os : list output) :
  ∀ st,
    Checked.process_outputs input_dir filename false st os
    = if forallb Base64.b64decode_accepts (output_images os)
      then Some (process_outputs input_dir filename false st os)
      else None.
Proof.
  induction os as [|o os IH]; intros st; [done|].
  rewrite output_images_cons, forallb_app. cbn [Checked.process_outputs].
  rewrite checked_process_output.
  destruct (forallb Base64.b64decode_accepts (output_images [o]));
    [|done].
  simpl. rewrite IH. done.
Qed.

Lemma checked_process_cell (input_dir filename : string) (c : cell)
    (st : Renderer.state) :
  Checked.process_cell input_dir filename false st c
  = if forallb Base64.b64decode_accepts (cell_images c)
    then Some (process_cell input_dir filename false st c)
    else None.
Proof.
  unfold Checked.process_cell, process_cell, cell_images.
  case_bool_decide; [|by case_bool_decide].
  rewrite checked_process_outputs. by destruct (forallb _ _).
Qed.

Lemma checked_run_from (input_dir filename : string) (nb : notebook) :
  ∀ st,
    Checked.run_from input_dir filename false st nb
    = if forallb Base64.b64decode_accepts (notebook_images nb)
      then Some (foldl (process_cell input_dir filename false) st nb)
      else None.
Proof.
  induction nb as [|c nb IH]; intros st; [done|].
  unfold notebook_images. simpl. rewrite forallb_app.
  rewrite checked_process_cell.
  destruct (forallb Base64.b64decode_accepts (cell_images c)); [|done].
  simpl. apply IH.
Qed.

(** With file output the rendering returns exactly when
    [base64.b64decode] accepts every image payload of the notebook;
    otherwise the exception of line 29 ends it.  When it returns, it has
    performed exactly these file-system operations, in this order: it made
    the output directory once, before the first write, when the notebook
    has an image and the directory did not exist yet; then it wrote one
    file per image payload, numbered by a counter that runs through the
    whole notebook and is not reset between cells.  A notebook without
    images leaves the file system untouched. *)
Theorem X_file_output_operations
    (input_dir filename : string) (fs0 : filesystem) (nb : notebook) :
  let dir := input_dir +:+ delim +:+ output_folder_of filename in
  (Forall (λ img, Base64.b64decode_accepts img = true) (notebook_images nb) →
   ∃ markup w,
     Checked.extract_html_from_notebook input_dir filename false fs0 nb
     = Some (markup, w)
     ∧ log w
       = log fs0
         ++ image_events dir (os_path_exists fs0 dir) 0 (notebook_images nb))
  ∧ (¬ Forall (λ img, Base64.b64decode_accepts img = true)
         (notebook_images nb) →
     Checked.extract_html_from_notebook input_dir filename false fs0 nb
     = None).
Proof.
  intros dir. unfold Checked.extract_html_from_notebook.
  rewrite checked_run_from. split.
  - intros H. apply forallb_accepts in H. rewrite H. simpl.
    do 2 eexists. split; [done|].
    by destruct (foldl_process_cell_saved input_dir filename nb
                   (Renderer.init fs0)) as (Hl & _ & _).
  - intros H. destruct (forallb _ _) eqn:E; [|done].
    exfalso. by apply H, forallb_accepts.
Qed.

Lemma X_file_output_witness :
  (∃ markup w,
     Checked.extract_html_from_notebook "dir" "nb.ipynb" false empty_fs
       [code_cell "plot()" [image_output "AAAA"];
        markdown_cell "text";
        code_cell "plot()" [image_output "iVBORw0KGgo="]]
     = Some (markup, w)
     ∧ log w
       = [MakeDirs "dir/output_nb_nb";
          WriteFile "dir/output_nb_nb/fig_01.png" "AAAA";
          WriteFile "dir/output_nb_nb/fig_02.png" "iVBORw0KGgo="])
  ∧ Checked.extract_html_from_notebook "dir" "nb.ipynb" false empty_fs
      [code_cell "plot()" [image_output "A"; image_output "AAAA"]]
    = None.
Proof.
  split.
  - apply (proj1 (X_file_output_operations "dir" "nb.ipynb" empty_fs
                    [code_cell "plot()" [image_output "AAAA"];
                     markdown_cell "text";
                     code_cell "plot()" [image_output "iVBORw0KGgo="]])).
    repeat constructor.
  - apply (proj2 (X_file_output_operations "dir" "nb.ipynb" empty_fs
                    [code_cell "plot()"
                       [image_output "A"; image_output "AAAA"]])).
    intros H. apply Forall_cons in H as [H _]. vm_compute in H.
    discriminate H.
Defined.

(** ** The renderer: what the markup depends on *)

Lemma process_output_view (d1 d2 f1 f2 : string) (b : bool)
    (st1 st2 : Renderer.state) (o : output) :
  b = true ∨ f1 = f2 →
  view st1 = view st2 →
  view (process_output d1 f1 b st1 o) = view (process_output d2 f2 b st2 o).
Proof.
  intros Hb Hv. destruct st1 as [h1 g1 a1 w1], st2 as [h2 g2 a2 w2].
  unfold view in Hv. simpl in Hv. injection Hv as -> -> ->.
  unfold process_output. rewrite !text_handlers, !handle_error_spec.
  unfold view. simpl. unfold handle_image.
  destruct (data_get o "image/png") as [img|]; [|done].
  unfold flush_aggregated, set_aggregated. simpl.
  destruct b.
  - by destruct (Py.truthy _).
  - destruct Hb as [?| ->]; [done|].
    destruct (Py.truthy _); simpl;
      by destruct (os_path_exists _ _), (os_path_exists _ _).
Qed.

Lemma process_outputs_view (d1 d2 f1 f2 : string) (b : bool)
    (os : list output) :
  b = true ∨ f1 = f2 →
  ∀ st1 st2, view st1 = view st2 →
    view (process_outputs d1 f1 b st1 os)
    = view (process_outputs d2 f2 b st2 os).
Proof.
  intros Hb. induction os as [|o os IH]; intros st1 st2 Hv; [done|].
  unfold process_outputs in *. simpl. apply IH.
  by apply process_output_view.
Qed.

Lemma process_cell_view (d1 d2 f1 f2 : string) (b : bool)
    (st1 st2 : Renderer.state) (c : cell) :
  b = true ∨ f1 = f2 →
  view st1 = view st2 →
  view (process_cell d1 f1 b st1 c) = view (process_cell d2 f2 b st2 c).
Proof.
  intros Hb Hv. unfold process_cell. case_bool_decide.
  - assert (view (process_outputs d1 f1 b (emit (code_block (source c)) st1)
                    (default [] (outputs c)))
            = view (process_outputs d2 f2 b (emit (code_block (source c)) st2)
                      (default [] (outputs c)))) as H1.
    { apply process_outputs_view; [done|].
      unfold view in *. simpl. by injection Hv as -> -> ->. }
    revert H1. generalize (process_outputs d1 f1 b
                             (emit (code_block (source c)) st1)
                             (default [] (outputs c))).
    generalize (process_outputs d2 f2 b
                  (emit (code_block (source c)) st2)
                  (default [] (outputs c))).
    intros s2 s1 H1. unfold view in *. injection H1 as H1 H2 H3.
    unfold flush_aggregated. rewrite H3.
    destruct (Py.truthy _); simpl; by rewrite ?H1, ?H2, ?H3.
  - case_bool_decide; [|done].
    unfold process_markdown, view in *. injection Hv as H1 H2 H3.
    destruct (is_header _); simpl; by rewrite H1, H2, H3.
Qed.

(** The markup does not depend on where the notebook lies nor on the state
    of the file system: two renderings of the same notebook under the same
    file name give the same markup whatever the directories and file
    systems; with Base64 embedding the file name does not matter either. *)
Theorem X_markup_independent_of_directory_and_files
    (d1 d2 f1 f2 : string) (b : bool) (w1 w2 : filesystem) (nb : notebook) :
  b = true ∨ f1 = f2 →
  (extract_html_from_notebook d1 f1 b w1 nb).1
  = (extract_html_from_notebook d2 f2 b w2 nb).1.
Proof.
  intros Hb. unfold extract_html_from_notebook, run. simpl.
  assert (∀ st1 st2, view st1 = view st2 →
            view (foldl (process_cell d1 f1 b) st1 nb)
            = view (foldl (process_cell d2 f2 b) st2 nb)) as H.
  { induction nb as [|c nb IH]; intros st1 st2 Hv; [done|].
    simpl. apply IH. by apply process_cell_view. }
  specialize (H (Renderer.init w1) (Renderer.init w2) eq_refl).
  unfold view in H. by injection H as -> _ _.
Qed.

Lemma X_markup_independent_witness :
  (extract_html_from_notebook "a" "nb.ipynb" false empty_fs
     [code_cell "plot()" [image_output "AAAA"]]).1
  = (extract_html_from_notebook "b/c" "nb.ipynb" false
       {| existing := {[ "b/c/output_nb_nb" ]}; log := [] |}
       [code_cell "plot()" [image_output "AAAA"]]).1.
Proof.
  apply (X_markup_independent_of_directory_and_files "a" "b/c" "nb.ipynb"
           "nb.ipynb" false empty_fs
           {| existing := {[ "b/c/output_nb_nb" ]}; log := [] |}
           [code_cell "plot()" [image_output "AAAA"]]).
  right. reflexivity.
Defined.

(** ** The renderer: the level of a heading cell *)

Lemma count_char_lstrip (c : ascii) (s : string) :
  Spec.count_char c (Py.lstrip s) ≤ Spec.count_char c s.
Proof.
  induction s as [|d s IH]; simpl; [done|].
  destruct (Py.is_space d); [|done]. lia.
Qed.

Lemma count_char_rstrip (c : ascii) (s : string) :
  Spec.count_char c (Py.rstrip s) ≤ Spec.count_char c s.
Proof.
  induction s as [|d s IH]; [done|].
  cbn [Py.rstrip]. rewrite count_char_cons.
  destruct (Py.is_space d && negb (Py.truthy (Py.rstrip s))).
  - simpl. lia.
  - rewrite count_char_cons. lia.
Qed.

Lemma count_char_strip (c : ascii) (s : string) :
  Spec.count_char c (Py.strip s) ≤ Spec.count_char c s.
Proof.
  unfold Py.strip.
  pose proof (count_char_rstrip c (Py.lstrip s)).
  pose proof (count_char_lstrip c s). lia.
Qed.

(** The characters of the lines come from the text. *)
Lemma splitlines_go_count (c : ascii) (n : nat) :
  ∀ s cur, String.length s < n →
    sum_list_with (Spec.count_char c) (Py.splitlines_go cur s)
    ≤ Spec.count_char c cur + Spec.count_char c s.
Proof.
  induction n as [|n IH]; intros s cur Hn; [lia|].
  destruct s as [|d s]; cbn [Py.splitlines_go].
  - destruct (Py.truthy cur); simpl; lia.
  - rewrite count_char_cons. simpl in Hn.
    destruct (Py.is_linebreak d).
    + destruct s as [|d' s].
      * pose proof (IH "" "" ltac:(simpl; lia)). simpl in *. lia.
      * destruct (Ascii.eqb d "013" && Ascii.eqb d' "010").
        -- pose proof (IH s "" ltac:(simpl in *; lia)).
           rewrite count_char_cons. simpl in *. lia.
        -- pose proof (IH (String d' s) "" ltac:(simpl in *; lia)).
           simpl in *. lia.
    + pose proof (IH s (cur +:+ String d "") ltac:(lia)) as H.
      rewrite count_char_app, count_char_cons in H. simpl in H. lia.
Qed.

Lemma count_char_line (c : ascii) (s l : string) :
  l ∈ Py.splitlines s → Spec.count_char c l ≤ Spec.count_char c s.
Proof.
  intros Hl. unfold Py.splitlines in Hl.
  pose proof (splitlines_go_count c (S (String.length s)) s ""
                ltac:(lia)) as H.
  simpl in H.
  pose proof (sum_list_with_in l (Spec.count_char c) _ Hl). lia.
Qed.

Lemma count_char_content_line (c : ascii) (s l : string) :
  l ∈ content_lines s → Spec.count_char c l ≤ Spec.count_char c s.
Proof.
  unfold content_lines. intros Hl.
  apply list_elem_of_In, filter_In in Hl as [Hl _].
  apply list_elem_of_In, list_elem_of_fmap in Hl as (l0 & -> & Hl0).
  pose proof (count_char_strip c l0).
  pose proof (count_char_line c s l0 Hl0). lia.
Qed.

(** A heading cell is rendered with a level of at least one: the tag of
    the heading is never [h0]. *)
Theorem X_heading_level_is_positive (src : string) (st : Renderer.state) :
  is_header (Py.html_escape src) = true →
  ∃ level text,
    1 ≤ level
    ∧ process_markdown src st = emit (heading_block level text) st.
Proof.
  intros Hh.
  exists (Py.count "#" (Py.html_escape src)),
         (Py.last_item (Py.split "# " (Py.html_escape src))).
  split; [|unfold process_markdown; by rewrite Hh].
  apply is_header_spec in Hh as (l & Hl & r & ->).
  rewrite (count_one_char "#").
  pose proof (count_char_content_line "#" (Py.html_escape src) ("#" +:+ r))
    as H.
  rewrite Hl in H. specialize (H ltac:(apply list_elem_of_here)).
  rewrite app_cons_str, count_char_cons in H. simpl in H. lia.
Qed.

Lemma X_heading_level_witness :
  ∃ level text,
    1 ≤ level
    ∧ process_markdown "## Methods" (Renderer.init empty_fs)
      = emit (heading_block level text) (Renderer.init empty_fs).
Proof.
  apply (X_heading_level_is_positive "## Methods" (Renderer.init empty_fs)).
  reflexivity.
Defined.

(** ** The hierarchy extractor: where a section is attached *)

Lemma scan_snoc (ts : list tag) (t : tag) :
  ∀ st, scan st (ts ++ [t]) = scan st ts ≫= λ st', step st' t.
Proof.
  induction ts as [|t0 ts IH]; intros st; simpl.
  - by destruct (step st t).
  - destruct (step st t0) as [st1|]; simpl; [apply IH | done].
Qed.

Lemma level_of_app_l (ts : list tag) (t : tag) (k : nat) :
  k < length ts → level_of (ts ++ [t]) k = level_of ts k.
Proof. intros Hk. unfold level_of. by rewrite lookup_app_l. Qed.

Lemma level_of_last (ts : list tag) (t : tag) :
  level_of (ts ++ [t]) (length ts) = tag_level t.
Proof.
  unfold level_of. rewrite lookup_app_r by lia.
  by rewrite Nat.sub_diag.
Qed.

Lemma nearest_lower_app (ts : list tag) (t : tag) (n level p : nat) :
  n ≤ length ts →
  nearest_lower ts n level p → nearest_lower (ts ++ [t]) n level p.
Proof.
  intros Hn (Hp & (lp & Hlp & Hlt) & Hbetween). split; [done|]. split.
  - exists lp. by rewrite level_of_app_l by lia.
  - intros k lk Hk Hlk. rewrite level_of_app_l in Hlk by lia. eauto.
Qed.

Lemma none_lower_app (ts : list tag) (t : tag) (n level : nat) :
  n ≤ length ts → none_lower ts n level → none_lower (ts ++ [t]) n level.
Proof.
  intros Hn H k lk Hk Hlk. rewrite level_of_app_l in Hlk by lia. eauto.
Qed.

Lemma pop_while_pop_while (level l : nat) (stk : list (nat * nat)) :
  level ≤ l → pop_while level (pop_while l stk) = pop_while level stk.
Proof.
  intros Hl. induction stk as [|[r l'] stk IH]; simpl; [done|].
  destruct (Nat.leb_spec l l'); simpl.
  - rewrite IH. destruct (Nat.leb_spec level l'); [done | lia].
  - done.
Qed.

Lemma add_section_stack (level : nat) (title cont : string)
    (st : Hierarchy.state) :
  stack (add_section level title cont st)
  = (length (store st), level) :: pop_while level (stack st).
Proof.
  unfold add_section.
  destruct (pop_while level (stack st)) as [|[p l] stk]; [done|].
  by destruct (_ !! p).
Qed.

Lemma stack_tracks_init : stack_tracks [] init.
Proof. split; [done|]. intros level k lk Hk. simpl in Hk. lia. Qed.

Lemma stack_tracks_step (ts : list tag) (t : tag) (level : nat)
    (st : Hierarchy.state) :
  tag_level t = Some level →
  stack_tracks ts st →
  stack_tracks (ts ++ [t])
    (add_section level (tag_title t) (tag_contents t) st).
Proof.
  intros Ht [Hlen Htr]. split.
  - rewrite add_section_length, length_app. simpl. lia.
  - intros lv. rewrite add_section_stack, Hlen, length_app. simpl.
    destruct (Nat.leb_spec lv level) as [Hle|Hlt].
    + rewrite pop_while_pop_while by done.
      specialize (Htr lv).
      destruct (pop_while lv (stack st)) as [|[p lp] stk].
      * intros k lk Hk Hlk.
        destruct (decide (k = length ts)) as [->|Hne].
        -- rewrite level_of_last, Ht in Hlk. injection Hlk as <-. done.
        -- rewrite level_of_app_l in Hlk by lia. apply (Htr k); [lia|done].
      * destruct Htr as (Hp & (lp' & Hlp & Hlow) & Hbetween).
        split; [lia|]. split.
        -- exists lp'. by rewrite level_of_app_l.
        -- intros k lk Hk Hlk.
           destruct (decide (k = length ts)) as [->|Hne].
           ++ rewrite level_of_last, Ht in Hlk. injection Hlk as <-. done.
           ++ rewrite level_of_app_l in Hlk by lia.
              apply (Hbetween k); [lia|done].
    + split; [lia|]. split.
      * exists level. by rewrite level_of_last.
      * intros k lk Hk. lia.
Qed.

Lemma scan_stack_tracks (ts : list tag) :
  ∀ st, scan init ts = Some st → stack_tracks ts st.
Proof.
  induction ts as [|t ts IH] using rev_ind; intros st H.
  - injection H as <-. apply stack_tracks_init.
  - rewrite scan_snoc in H.
    destruct (scan init ts) as [st0|]; simpl in H; [|done].
    apply step_Some in H as (level & Ht & ->).
    by apply stack_tracks_step; [|apply IH].
Qed.

Lemma dict_set_elem_new {V} (k : string) (v : V) (d : list (string * V)) :
  (k, v) ∈ dict_set k v d.
Proof.
  induction d as [|[k' v'] d IH]; simpl; [apply list_elem_of_here|].
  case_decide; [apply list_elem_of_here | by apply list_elem_of_further].
Qed.

Lemma dict_set_elem_of {V} (x : string * V) (k : string) (v : V)
    (d : list (string * V)) :
  x ∈ dict_set k v d → x = (k, v) ∨ x ∈ d.
Proof.
  induction d as [|[k' v'] d IH]; simpl.
  - intros ->%list_elem_of_singleton. by left.
  - case_decide.
    + intros [->|?]%elem_of_cons; [by left|].
      right. by apply list_elem_of_further.
    + intros [->|?]%elem_of_cons; [right; apply list_elem_of_here|].
      destruct IH as [->|?]; [done | by left |].
      right. by apply list_elem_of_further.
Qed.

(** The stack discipline: a new heading of level [level] is attached to
    the nearest heading before it whose level is strictly lower, and to the
    root when no earlier heading has a lower level; its section is created
    with the contents of the tag and without a mapping of its own. *)
Theorem X_heading_attached_to_nearest_lower
    (ts : list tag) (t : tag) (st st' : Hierarchy.state) :
  scan init ts = Some st →
  step st t = Some st' →
  ∃ level,
    tag_level t = Some level
    ∧ store st' !! length ts
      = Some {| contents := tag_contents t; sections := None |}
    ∧ ((∃ p o d,
          nearest_lower ts (length ts) level p
          ∧ store st' !! p = Some o
          ∧ sections o = Some d
          ∧ (tag_title t, length ts) ∈ d
          ∧ root st' = root st)
       ∨ (none_lower ts (length ts) level
          ∧ (tag_title t, length ts) ∈ root st')).
Proof.
  intros Hscan Hstep.
  apply step_Some in Hstep as (level & Ht & ->).
  destruct (scan_stack_tracks ts st Hscan) as [Hlen Htr].
  specialize (Htr level). exists level. split; [done|].
  unfold add_section. rewrite <- Hlen.
  destruct (pop_while level (stack st)) as [|[p lp] stk].
  - simpl. split.
    + rewrite lookup_app_r by lia. by rewrite Nat.sub_diag.
    + right. split; [by rewrite Hlen | apply dict_set_elem_new].
  - assert (p < length (store st)) as Hp by (destruct Htr; lia).
    destruct (lookup_lt_is_Some_2 (store st) p Hp) as [parent Hparent].
    rewrite lookup_app_l by done. rewrite Hparent. simpl. split.
    + rewrite list_lookup_insert_ne by lia.
      rewrite lookup_app_r by lia. by rewrite Nat.sub_diag.
    + left.
      exists p, (attach (tag_title t) (length (store st)) parent),
        (dict_set (tag_title t) (length (store st))
           (default [] (sections parent))).
      split; [by rewrite Hlen|]. split.
      * apply list_lookup_insert_eq. rewrite length_app. simpl. lia.
      * split; [done|]. split; [apply dict_set_elem_new | done].
Qed.

Lemma X_heading_attached_witness :
  ∃ level,
    tag_level {| tag_node := heading "3" "C"; next_siblings := [] |}
    = Some level
    ∧ store
        (add_section 3 "C" "<h3>C</h3>"
           (add_section 2 "B" "<h2>B</h2>"
              (add_section 1 "A" "<h1>A</h1>" init))) !! 2
      = Some {| contents :=
                  tag_contents
                    {| tag_node := heading "3" "C"; next_siblings := [] |};
                sections := None |}
    ∧ ((∃ p o d,
          nearest_lower
            [{| tag_node := heading "1" "A";
                next_siblings := [heading "2" "B"; heading "3" "C"] |};
             {| tag_node := heading "2" "B";
                next_siblings := [heading "3" "C"] |}] 2 level p
          ∧ store
              (add_section 3 "C" "<h3>C</h3>"
                 (add_section 2 "B" "<h2>B</h2>"
                    (add_section 1 "A" "<h1>A</h1>" init))) !! p
            = Some o
          ∧ sections o = Some d
          ∧ ("C", 2) ∈ d
          ∧ root
              (add_section 3 "C" "<h3>C</h3>"
                 (add_section 2 "B" "<h2>B</h2>"
                    (add_section 1 "A" "<h1>A</h1>" init)))
            = root
                (add_section 2 "B" "<h2>B</h2>"
                   (add_section 1 "A" "<h1>A</h1>" init)))
       ∨ (none_lower
            [{| tag_node := heading "1" "A";
                next_siblings := [heading "2" "B"; heading "3" "C"] |};
             {| tag_node := heading "2" "B";
                next_siblings := [heading "3" "C"] |}] 2 level
          ∧ ("C", 2)
            ∈ root
                (add_section 3 "C" "<h3>C</h3>"
                   (add_section 2 "B" "<h2>B</h2>"
                      (add_section 1 "A" "<h1>A</h1>" init))))).
Proof.
  apply (X_heading_attached_to_nearest_lower
           [{| tag_node := heading "1" "A";
               next_siblings := [heading "2" "B"; heading "3" "C"] |};
            {| tag_node := heading "2" "B";
               next_siblings := [heading "3" "C"] |}]
           {| tag_node := heading "3" "C"; next_siblings := [] |}
           (add_section 2 "B" "<h2>B</h2>"
              (add_section 1 "A" "<h1>A</h1>" init))
           (add_section 3 "C" "<h3>C</h3>"
              (add_section 2 "B" "<h2>B</h2>"
                 (add_section 1 "A" "<h1>A</h1>" init))));
    reflexivity.
Defined.

Lemma attached_under_app (ts : list tag) (t : tag) (p : nat) (k : string)
    (r : nat) :
  attached_under ts p k r → attached_under (ts ++ [t]) p k r.
Proof.
  intros (tr & lr & Hr & Hk & Hl & Hn).
  pose proof (lookup_lt_Some _ _ _ Hr).
  exists tr, lr. split; [by apply lookup_app_l_Some|].
  split; [done|]. split; [done|]. apply nearest_lower_app; [lia|done].
Qed.

Lemma attached_at_root_app (ts : list tag) (t : tag) (k : string) (r : nat) :
  attached_at_root ts k r → attached_at_root (ts ++ [t]) k r.
Proof.
  intros (tr & lr & Hr & Hk & Hl & Hn).
  pose proof (lookup_lt_Some _ _ _ Hr).
  exists tr, lr. split; [by apply lookup_app_l_Some|].
  split; [done|]. split; [done|]. apply none_lower_app; [lia|done].
Qed.

Lemma edges_step (ts : list tag) (t : tag) (level : nat)
    (st : Hierarchy.state) :
  tag_level t = Some level →
  stack_tracks ts st →
  (∀ p o d k r, store st !! p = Some o → sections o = Some d →
                (k, r) ∈ d → attached_under ts p k r) →
  (∀ k r, (k, r) ∈ root st → attached_at_root ts k r) →
  let st' := add_section level (tag_title t) (tag_contents t) st in
  (∀ p o d k r, store st' !! p = Some o → sections o = Some d →
                (k, r) ∈ d → attached_under (ts ++ [t]) p k r)
  ∧ (∀ k r, (k, r) ∈ root st' → attached_at_root (ts ++ [t]) k r).
Proof.
  intros Ht [Hlen Htr] Hsec Hroot. specialize (Htr level).
  assert (∀ p o d k r,
            (store st ++ [{| contents := tag_contents t; sections := None |}])
              !! p = Some o →
            sections o = Some d → (k, r) ∈ d →
            attached_under (ts ++ [t]) p k r) as Hsec1.
  { intros p o d k r Hp Hd Hk.
    destruct (decide (p < length (store st))) as [Hlt|Hge].
    - rewrite lookup_app_l in Hp by done.
      apply attached_under_app. by eapply Hsec.
    - rewrite lookup_app_r in Hp by lia.
      destruct (p - length (store st)); simplify_eq/=. }
  assert ((ts ++ [t]) !! length ts = Some t) as Hlast.
  { rewrite lookup_app_r by lia. by rewrite Nat.sub_diag. }
  unfold add_section. simpl.
  destruct (pop_while level (stack st)) as [|[p lp] stk]; simpl.
  - split; [done|]. intros k r [Hk|Hk]%dict_set_elem_of.
    + injection Hk as -> ->. rewrite Hlen.
      exists t, level. split; [done|]. split; [done|]. split; [done|].
      apply none_lower_app; [lia|done].
    + apply attached_at_root_app. by apply Hroot.
  - destruct (_ !! p) as [parent|] eqn:Eparent; simpl.
    + split; [|intros k r Hk; apply attached_at_root_app; by apply Hroot].
      intros q o d k r Hq Hd Hk.
      destruct (decide (q = p)) as [->|Hne].
      * rewrite list_lookup_insert_eq in Hq
          by (by eapply lookup_lt_Some).
        injection Hq as <-. simpl in Hd. injection Hd as <-.
        apply dict_set_elem_of in Hk as [Hk|Hk].
        -- injection Hk as -> ->. rewrite Hlen.
           exists t, level. split; [done|]. split; [done|]. split; [done|].
           apply nearest_lower_app; [lia|done].
        -- destruct (sections parent) as [d|] eqn:Ed; simpl in Hk.
           ++ by eapply Hsec1.
           ++ by apply elem_of_nil in Hk.
      * rewrite list_lookup_insert_ne in Hq by done. by eapply Hsec1.
    + split; [done|].
      intros k r Hk. apply attached_at_root_app. by apply Hroot.
Qed.

Lemma scan_edges (ts : list tag) :
  ∀ st, scan init ts = Some st →
    (∀ p o d k r, store st !! p = Some o → sections o = Some d →
                  (k, r) ∈ d → attached_under ts p k r)
    ∧ (∀ k r, (k, r) ∈ root st → attached_at_root ts k r).
Proof.
  induction ts as [|t ts IH] using rev_ind; intros st H.
  - injection H as <-. split.
    + intros p o d k r Hp. by destruct p.
    + intros k r Hk. by apply elem_of_nil in Hk.
  - rewrite scan_snoc in H.
    destruct (scan init ts) as [st0|] eqn:E; simpl in H; [|done].
    apply step_Some in H as (level & Ht & ->).
    destruct (IH st0 eq_refl) as [Hsec Hroot].
    apply edges_step; [done | by apply scan_stack_tracks | done | done].
Qed.

(** Every entry of the finished hierarchy is in its place: an entry of the
    mapping of a section names a later heading by its title, with the
    section as the nearest heading before it of a strictly lower level (so
    levels grow strictly from a section to its subsections); an entry of the
    root names a heading that no earlier heading undercuts. *)
Theorem X_hierarchy_entries_are_in_place
    (soup : list node) (st : Hierarchy.state) :
  scan init (find_all soup) = Some st →
  (∀ p o d k r, store st !! p = Some o → sections o = Some d →
                (k, r) ∈ d → attached_under (find_all soup) p k r)
  ∧ (∀ k r, (k, r) ∈ root st → attached_at_root (find_all soup) k r).
Proof. apply scan_edges. Qed.

Lemma X_hierarchy_entries_witness :
  (∀ p o d k r,
     store (add_section 2 "B" "<h2>B</h2>"
              (add_section 1 "A" "<h1>A</h1>" init)) !! p = Some o →
     sections o = Some d → (k, r) ∈ d →
     attached_under (find_all [heading "1" "A"; heading "2" "B"]) p k r)
  ∧ (∀ k r,
       (k, r) ∈ root (add_section 2 "B" "<h2>B</h2>"
                        (add_section 1 "A" "<h1>A</h1>" init)) →
       attached_at_root (find_all [heading "1" "A"; heading "2" "B"]) k r).
Proof.
  apply (X_hierarchy_entries_are_in_place
           [heading "1" "A"; heading "2" "B"]
           (add_section 2 "B" "<h2>B</h2>"
              (add_section 1 "A" "<h1>A</h1>" init))).
  reflexivity.
Defined.

(** ** The hierarchy extractor: contents without stray siblings *)

Lemma filter_non_heading (pre rest : list node) :
  Forall (λ n, re_match_h (node_name n) = false) pre →
  Forall (λ n, re_match_h (node_name n) = true) rest →
  List.filter (λ sibling, negb (re_match_h (node_name sibling))) (pre ++ rest)
  = pre.
Proof.
  intros Hpre Hrest. induction Hpre as [|n pre Hn Hpre IH]; simpl.
  - induction Hrest as [|n rest Hn Hrest IH]; simpl; [done|].
    by rewrite Hn.
  - by rewrite Hn, IH.
Qed.

Lemma upto_next_heading_app (pre rest : list node) :
  Forall (λ n, re_match_h (node_name n) = false) pre →
  Forall (λ n, re_match_h (node_name n) = true) rest →
  Spec.upto_next_heading (pre ++ rest) = pre.
Proof.
  intros Hpre Hrest. induction Hpre as [|n pre Hn Hpre IH]; simpl.
  - destruct Hrest as [|n rest Hn Hrest]; simpl; [done|]. by rewrite Hn.
  - by rewrite Hn, IH.
Qed.

(** When every sibling element behind the first sibling heading is a
    heading too (in particular when the heading has no sibling element at
    all), the contents of the section are the markup of the heading followed
    by the markup of the sibling elements in front of the next heading. *)
Theorem X_contents_stop_at_next_heading
    (t : tag) (pre rest : list node) :
  find_next_siblings t = pre ++ rest →
  Forall (λ n, re_match_h (node_name n) = false) pre →
  Forall (λ n, re_match_h (node_name n) = true) rest →
  tag_contents t
  = node_str (tag_node t) +:+ Py.concat (node_str <$> pre)
  ∧ tag_contents t = Spec.contents_upto_next_heading t.
Proof.
  intros Hs Hpre Hrest.
  unfold tag_contents, Spec.contents_upto_next_heading.
  by rewrite Hs, filter_non_heading, upto_next_heading_app.
Qed.

Lemma X_contents_witness :
  tag_contents
    {| tag_node := heading "1" "A";
       next_siblings := [para "x"; Text "t"; heading "2" "B"] |}
  = node_str (heading "1" "A") +:+ Py.concat (node_str <$> [para "x"])
  ∧ tag_contents
      {| tag_node := heading "1" "A";
         next_siblings := [para "x"; Text "t"; heading "2" "B"] |}
    = Spec.contents_upto_next_heading
        {| tag_node := heading "1" "A";
           next_siblings := [para "x"; Text "t"; heading "2" "B"] |}.
Proof.
  apply (X_contents_stop_at_next_heading
           {| tag_node := heading "1" "A";
              next_siblings := [para "x"; Text "t"; heading "2" "B"] |}
           [para "x"] [heading "2" "B"]).
  - reflexivity.
  - repeat constructor.
  - repeat constructor.
Defined.

(** ** File names *)

Lemma occurs_cons_inv (sep : string) (c : ascii) (s : string) :
  Spec.occurs sep s → Spec.occurs sep (String c s).
Proof. intros (a & b & ->). by exists (String c a), b. Qed.

Lemma ipynb_prefix_of_app (stem : string) :
  Py.startswith ".ipynb" (stem +:+ ".ipynb") = true →
  stem = "" ∨ Py.startswith ".ipynb" stem = true.
Proof.
  intros [r Hr]%startswith_spec.
  do 6 (destruct stem as [|? stem]; [str_norm_in Hr; simplify_eq; by left|]).
  right. str_norm_in Hr. simplify_eq. apply startswith_spec. by eexists.
Qed.

(** When [".ipynb"] does not occur in [stem], its first occurrence in
    [stem +:+ ".ipynb"] is the final one. *)
Lemma ipynb_first_occurrence (stem : string) :
  ¬ Spec.occurs ".ipynb" stem →
  ∀ a b, stem +:+ ".ipynb" = a +:+ ".ipynb" +:+ b →
    String.length stem ≤ String.length a.
Proof.
  induction stem as [|c stem IH]; intros Hno a b H; [simpl; lia|].
  destruct a as [|x a].
  - exfalso. rewrite app_nil_str in H.
    destruct (ipynb_prefix_of_app (String c stem)) as [?|Hp]; [|done|].
    + apply startswith_spec. by exists b.
    + apply startswith_spec in Hp as [r Hr]. apply Hno. exists "", r.
      by rewrite app_nil_str.
  - str_norm_in H. injection H as _ H. simpl.
    apply IH in H; [lia|]. intros Ho. by apply Hno, occurs_cons_inv.
Qed.

Lemma split_go_first (sep stem rest : string) :
  sep ≠ "" →
  ∀ cur,
    (∀ a b, stem +:+ sep +:+ rest = a +:+ sep +:+ b →
            String.length stem ≤ String.length a) →
    Py.first_item (Py.split_go sep 0 cur (stem +:+ sep +:+ rest))
    = cur +:+ stem.
Proof.
  intros Hsep. induction stem as [|c stem IH]; intros cur Hfirst.
  - rewrite app_nil_str, split_go_match by done. simpl.
    by rewrite app_empty_r.
  - rewrite app_cons_str.
    destruct (Py.startswith sep (String c (stem +:+ sep +:+ rest))) eqn:Hp.
    + apply startswith_spec in Hp as [r Hr].
      specialize (Hfirst "" r). rewrite app_cons_str, app_nil_str in Hfirst.
      specialize (Hfirst Hr). simpl in Hfirst. lia.
    + rewrite split_go_nomatch by done. rewrite IH.
      * by rewrite app_assoc_str.
      * intros a b Hab. specialize (Hfirst (String c a) b).
        rewrite !app_cons_str, Hab in Hfirst.
        specialize (Hfirst eq_refl). simpl in Hfirst. lia.
Qed.

(** For a notebook file [stem.ipynb] whose stem does not itself contain
    [.ipynb], the images go to the directory [output_nb_stem]. *)
Theorem X_output_folder_of_notebook_file (stem : string) :
  ¬ Spec.occurs ".ipynb" stem →
  output_folder_of (stem +:+ ".ipynb") = "output_nb_" +:+ stem.
Proof.
  intros Hno. unfold output_folder_of, Py.split. f_equal.
  pose proof (split_go_first ".ipynb" stem "" ltac:(done) "") as H.
  rewrite app_empty_r, app_nil_str in H. apply H.
  intros a b Hab. by apply (ipynb_first_occurrence stem Hno a b).
Qed.

Lemma not_occurs_short (sep s : string) :
  String.length s < String.length sep → ¬ Spec.occurs sep s.
Proof.
  intros Hlen (a & b & ->). rewrite !app_length_str in Hlen. lia.
Qed.

Lemma X_output_folder_witness :
  output_folder_of ("erps" +:+ ".ipynb") = "output_nb_" +:+ "erps".
Proof.
  apply (X_output_folder_of_notebook_file "erps").
  apply not_occurs_short. simpl. lia.
Defined.

Import Driver.

Lemma rfind_char_app (c : ascii) (a b : string) :
  rfind_char c (a +:+ b)
  = match rfind_char c b with
    | Some i => Some (String.length a + i)
    | None => rfind_char c a
    end.
Proof.
  induction a as [|x a IH].
  - rewrite app_nil_str. destruct (rfind_char c b); reflexivity.
  - rewrite app_cons_str. cbn [rfind_char]. rewrite IH.
    destruct (rfind_char c b); reflexivity.
Qed.

Lemma rfind_char_absent (c : ascii) (s : string) :
  Spec.count_char c s = 0 → rfind_char c s = None.
Proof.
  induction s as [|x s IH]; [done|].
  rewrite count_char_cons. simpl.
  destruct (Ascii.eqb_spec c x) as [->|Hne]; [lia|].
  intros H. rewrite IH by lia.
  destruct (Ascii.eqb_spec x c); [congruence | done].
Qed.

Lemma non_dot_within_spec (stem rest : string) :
  Spec.count_char "." stem < String.length stem →
  non_dot_within (String.length stem) (stem +:+ rest) = true.
Proof.
  induction stem as [|x stem IH]; [simpl; lia|].
  rewrite count_char_cons, app_cons_str. simpl.
  destruct (Ascii.eqb_spec "."%char x) as [<-|Hne]; simpl.
  - intros H. apply IH. lia.
  - intros _. destruct (Ascii.eqb_spec x "."%char); [congruence | done].
Qed.

Lemma str_take_app (a b : string) : str_take (String.length a) (a +:+ b) = a.
Proof.
  induction a as [|x a IH]; [by destruct b|].
  rewrite app_cons_str. simpl. by rewrite IH.
Qed.

Lemma str_drop_app (a b : string) : str_drop (String.length a) (a +:+ b) = b.
Proof. induction a as [|x a IH]; [by destruct b | done]. Qed.

(** [os.path.splitext] takes the extension off a notebook file name: for a
    stem without a separator and with a character that is not a dot, the
    root of [stem.ipynb] is [stem].  (A stem made of dots keeps its
    extension: the root of [.ipynb] is [.ipynb].) *)
Theorem X_splitext_of_notebook_file (stem : string) :
  Spec.count_char "/" stem = 0 →
  Spec.count_char "." stem < String.length stem →
  splitext (stem +:+ ".ipynb") = (stem, ".ipynb").
Proof.
  intros Hsep Hdot. unfold splitext.
  rewrite !rfind_char_app. simpl rfind_char at 1 2.
  rewrite (rfind_char_absent "/" stem Hsep).
  cbn [rfind_char]. simpl.
  rewrite Nat.add_0_r, Nat.sub_0_r.
  by rewrite non_dot_within_spec, str_take_app, str_drop_app.
Qed.

Lemma X_splitext_witness :
  splitext ("05_erps" +:+ ".ipynb") = ("05_erps", ".ipynb").
Proof.
  apply (X_splitext_of_notebook_file "05_erps"); [reflexivity | simpl; lia].
Defined.

(** ** The driver *)

Section DriverFacts.

Variable execute_notebook : string → option notebook.
Variable parse : string → list node.
Variables (input_folder : string) (use_base64 write_html : bool).

Local Abbreviation convert_file :=
  (Driver.convert_file execute_notebook parse input_folder use_base64
     write_html).
Local Abbreviation convert :=
  (Driver.convert_notebooks_to_html execute_notebook parse input_folder
     use_base64 write_html).

Lemma json_paths_write_html (path content : string) (w : world) :
  json_paths (write_artifact path (HtmlFile path content) w) = json_paths w.
Proof.
  unfold json_paths, write_artifact. simpl.
  by rewrite omap_app, app_nil_r.
Qed.

(** What one file adds to the JSON files. *)
Lemma convert_file_json (w : world) (filename : string) :
  json_paths (world_of (convert_file w filename))
  = json_paths w
    ++ match convert_file w filename with
       | Returned _ =>
           if endswith ".ipynb" filename
           then [os_path_join input_folder
                   ((splitext filename).1 +:+ ".json")]
           else []
       | Raised _ => []
       end.
Proof.
  unfold Driver.convert_file.
  destruct (endswith ".ipynb" filename); [|by rewrite app_nil_r].
  destruct (execute_notebook _) as [nb|]; [|by rewrite app_nil_r].
  destruct (extract_html_from_notebook _ _ _ _ nb) as [html_content fs'].
  destruct (html_to_hierarchical_json _ _) as [doc|]; simpl.
  - unfold json_paths at 1. simpl. rewrite omap_app. simpl.
    f_equal. destruct write_html; [|done].
    apply (json_paths_write_html _ _ (set_files fs' (print _ w))).
  - rewrite app_nil_r. destruct write_html; [|done].
    apply (json_paths_write_html _ _ (set_files fs' (print _ w))).
Qed.

Lemma convert_app (l1 l2 : list string) :
  ∀ w,
    convert w (l1 ++ l2)
    = match convert w l1 with
      | Returned w1 => convert w1 l2
      | Raised w1 => Raised w1
      end.
Proof.
  induction l1 as [|f l1 IH]; intros w; [done|].
  simpl. destruct (convert_file w f); [apply IH | done].
Qed.

End DriverFacts.

(** An exception in one notebook ends the whole run: when the conversion of
    a file raises (its execution fails, or the hierarchy extractor rejects a
    tag), the files behind it in the listing are not processed, and no JSON
    file is written for the failing notebook. *)
Theorem X_failure_stops_the_run
    (execute_notebook : string → option notebook)
    (parse : string → list node)
    (input_folder : string) (use_base64 write_html : bool)
    (w w1 w2 : world) (before after : list string) (filename : string) :
  convert_notebooks_to_html execute_notebook parse input_folder use_base64
    write_html w before = Returned w1 →
  convert_file execute_notebook parse input_folder use_base64 write_html
    w1 filename = Raised w2 →
  convert_notebooks_to_html execute_notebook parse input_folder use_base64
    write_html w (before ++ filename :: after) = Raised w2
  ∧ json_paths w2 = json_paths w1.
Proof.
  intros Hbefore Hfile. split.
  - rewrite convert_app, Hbefore. simpl. by rewrite Hfile.
  - pose proof (convert_file_json execute_notebook parse input_folder
                  use_base64 write_html w1 filename) as H.
    rewrite Hfile in H. simpl in H. by rewrite app_nil_r in H.
Qed.

Lemma X_failure_witness :
  convert_notebooks_to_html (λ _, None) (λ _, []) "dir" false true
    {| files := empty_fs; artifacts := []; stdout := [] |}
    ([] ++ "a.ipynb" :: ["b.ipynb"])
  = Raised {| files := empty_fs; artifacts := [];
              stdout := ["Processing notebook: a.ipynb"] |}
  ∧ json_paths {| files := empty_fs; artifacts := [];
                  stdout := ["Processing notebook: a.ipynb"] |}
    = json_paths {| files := empty_fs; artifacts := []; stdout := [] |}.
Proof.
  apply (X_failure_stops_the_run (λ _, None) (λ _, []) "dir" false true
           {| files := empty_fs; artifacts := []; stdout := [] |}
           {| files := empty_fs; artifacts := []; stdout := [] |}
           {| files := empty_fs; artifacts := [];
              stdout := ["Processing notebook: a.ipynb"] |}
           [] ["b.ipynb"] "a.ipynb");
    reflexivity.
Defined.

(** A run that returns has written one JSON file for every name of the
    listing that ends in [.ipynb], in the order of the listing, each next to
    the notebook under the root that [os.path.splitext] gives; the other
    files of the directory contribute nothing. *)
Theorem X_one_json_per_notebook
    (execute_notebook : string → option notebook)
    (parse : string → list node)
    (input_folder : string) (use_base64 write_html : bool)
    (listing : list string) (w w' : world) :
  convert_notebooks_to_html execute_notebook parse input_folder use_base64
    write_html w listing = Returned w' →
  json_paths w'
  = json_paths w
    ++ ((λ filename,
           os_path_join input_folder ((splitext filename).1 +:+ ".json"))
          <$> List.filter (endswith ".ipynb") listing).
Proof.
  revert w. induction listing as [|f listing IH]; intros w H; simpl in *.
  - injection H as <-. by rewrite app_nil_r.
  - pose proof (convert_file_json execute_notebook parse input_folder
                  use_base64 write_html w f) as Hf.
    destruct (convert_file execute_notebook parse input_folder use_base64
                write_html w f) as [w1|w1]; [|done].
    simpl in Hf. rewrite (IH w1 H), Hf, <- app_assoc. f_equal.
    by destruct (endswith ".ipynb" f).
Qed.

Lemma X_one_json_witness :
  json_paths
    {| files := {| existing := {[ "dir/a.json" ]}; log := [] |};
       artifacts := [JsonFile "dir/a.json" ("a.ipynb", [])];
       stdout := ["Processing notebook: a.ipynb";
                  "Successfully converted 'a.ipynb'"] |}
  = json_paths {| files := empty_fs; artifacts := []; stdout := [] |}
    ++ ((λ filename,
           os_path_join "dir" ((splitext filename).1 +:+ ".json"))
          <$> List.filter (endswith ".ipynb") ["notes.txt"; "a.ipynb"]).
Proof.
  apply (X_one_json_per_notebook (λ _, Some []) (λ _, []) "dir" false false
           ["notes.txt"; "a.ipynb"]
           {| files := empty_fs; artifacts := []; stdout := [] |}).
  vm_compute. reflexivity.
Defined.

(** Without [write_html] no HTML file is written, however the run ends. *)
Theorem X_no_html_file_unless_asked
    (execute_notebook : string → option notebook)
    (parse : string → list node)
    (input_folder : string) (use_base64 : bool)
    (listing : list string) (w : world) :
  List.filter is_html
    (artifacts
       (world_of
          (convert_notebooks_to_html execute_notebook parse input_folder
             use_base64 false w listing)))
  = List.filter is_html (artifacts w).
Proof.
  revert w. induction listing as [|f listing IH]; intros w; [done|].
  simpl.
  assert (List.filter is_html
            (artifacts
               (world_of
                  (convert_file execute_notebook parse input_folder
                     use_base64 false w f)))
          = List.filter is_html (artifacts w)) as Hf.
  { unfold convert_file.
    destruct (endswith ".ipynb" f); [|done].
    destruct (execute_notebook _) as [nb|]; [|done].
    destruct (extract_html_from_notebook _ _ _ _ nb) as [html_content fs'].
    destruct (html_to_hierarchical_json _ _) as [doc|]; simpl; [|done].
    by rewrite List.filter_app, app_nil_r. }
  destruct (convert_file execute_notebook parse input_folder use_base64
              false w f) as [w1|w1]; simpl in *.
  - by rewrite IH.
  - done.
Qed.

Lemma run_base64_fs (input_dir filename : string) (fs0 : filesystem)
    (nb : notebook) :
  (extract_html_from_notebook input_dir filename true fs0 nb).2 = fs0.
Proof.
  unfold extract_html_from_notebook, run. simpl.
  change fs0 with (fs (Renderer.init fs0)) at 2.
  generalize (Renderer.init fs0).
  induction nb as [|c nb IH]; intros st; [done|].
  simpl. rewrite IH. apply process_cell_base64_frame.
Qed.

(** With Base64 embedding the driver performs no image-file operation at
    all, however many notebooks it converts and however the run ends: the
    log of directory creations and image writes is as it was. *)
Theorem X_base64_run_saves_no_image
    (execute_notebook : string → option notebook)
    (parse : string → list node)
    (input_folder : string) (write_html : bool)
    (listing : list string) (w : world) :
  log (files
         (world_of
            (convert_notebooks_to_html execute_notebook parse input_folder
               true write_html w listing)))
  = log (files w).
Proof.
  revert w. induction listing as [|f listing IH]; intros w; [done|].
  simpl.
  assert (log (files
                 (world_of
                    (convert_file execute_notebook parse input_folder true
                       write_html w f)))
          = log (files w)) as Hf.
  { unfold convert_file.
    destruct (endswith ".ipynb" f); [|done].
    destruct (execute_notebook _) as [nb|]; [|done].
    pose proof (run_base64_fs input_folder f (files (print
                  ("Processing notebook: " +:+ f) w)) nb) as Hfs.
    destruct (extract_html_from_notebook _ _ _ _ nb) as [html_content fs'].
    simpl in Hfs. subst fs'.
    destruct (html_to_hierarchical_json _ _) as [doc|];
      by destruct write_html. }
  destruct (convert_file execute_notebook parse input_folder true
              write_html w f) as [w1|w1]; simpl in *.
  - by rewrite IH.
  - done.
Qed.

(** ** The hierarchy extractor: headings with the same title *)

Lemma dict_set_keys {V} (k : string) (v : V) (d : list (string * V)) :
  (dict_set k v d).*1 = if decide (k ∈ d.*1) then d.*1 else d.*1 ++ [k].
Proof.
  induction d as [|[k' v'] d IH]; [done|].
  cbn [dict_set]. rewrite fmap_cons. cbn [fst].
  destruct (decide (k = k')) as [<-|Hk].
  - rewrite decide_True by apply list_elem_of_here. done.
  - rewrite fmap_cons, IH. cbn [fst].
    destruct (decide (k ∈ d.*1)) as [Hin|Hnin].
    + rewrite decide_True by (by apply list_elem_of_further). done.
    + rewrite decide_False; [done|].
      intros [?|?]%elem_of_cons; done.
Qed.

Lemma dict_set_NoDup {V} (k : string) (v : V) (d : list (string * V)) :
  NoDup d.*1 → NoDup (dict_set k v d).*1.
Proof.
  intros Hd. rewrite dict_set_keys. case_decide; [done|].
  apply NoDup_app. split; [done|]. split; [|apply NoDup_singleton].
  intros x Hx ->%list_elem_of_singleton. done.
Qed.

Lemma dict_set_key_unique {V} (k : string) (v v' : V)
    (d : list (string * V)) :
  NoDup d.*1 → (k, v') ∈ dict_set k v d → v' = v.
Proof.
  induction d as [|[k0 v0] d IH]; simpl; intros Hd H.
  - apply list_elem_of_singleton in H. by injection H.
  - apply NoDup_cons in Hd as [Hk0 Hd]. case_decide as Hk.
    + subst k0. apply elem_of_cons in H as [H|H]; [by injection H|].
      exfalso. apply Hk0. apply list_elem_of_fmap. by exists (k, v').
    + apply elem_of_cons in H as [H|H]; [injection H as -> _; done|].
      by apply IH.
Qed.

Lemma keys_distinct_step (level : nat) (title cont : string)
    (st : Hierarchy.state) :
  keys_distinct st → keys_distinct (add_section level title cont st).
Proof.
  intros [Hsec Hroot].
  assert (∀ p o d,
            (store st ++ [{| contents := cont; sections := None |}]) !! p
            = Some o → sections o = Some d → NoDup d.*1) as Hsec1.
  { intros p o d Hp Hd.
    destruct (decide (p < length (store st))) as [Hlt|Hge].
    - rewrite lookup_app_l in Hp by done. by eapply Hsec.
    - rewrite lookup_app_r in Hp by lia.
      destruct (p - length (store st)); simplify_eq/=. }
  unfold add_section.
  destruct (pop_while level (stack st)) as [|[p lp] stk]; simpl.
  - split; [done | by apply dict_set_NoDup].
  - destruct (_ !! p) as [parent|] eqn:E; simpl; [|done].
    split; [|done]. intros q o d Hq Hd. simpl in Hq.
    destruct (decide (q = p)) as [->|Hne].
    + rewrite list_lookup_insert_eq in Hq by (by eapply lookup_lt_Some).
      injection Hq as <-. simpl in Hd. injection Hd as <-.
      apply dict_set_NoDup.
      destruct (sections parent) as [d|] eqn:Ed; simpl;
        [by eapply Hsec1 | apply NoDup_nil_2].
    + rewrite list_lookup_insert_ne in Hq by done. by eapply Hsec1.
Qed.

Lemma scan_keys_distinct (ts : list tag) :
  ∀ st, scan init ts = Some st → keys_distinct st.
Proof.
  induction ts as [|t ts IH] using rev_ind; intros st H.
  - injection H as <-. split; [|apply NoDup_nil_2].
    intros p o d Hp. by destruct p.
  - rewrite scan_snoc in H.
    destruct (scan init ts) as [st0|]; simpl in H; [|done].
    apply step_Some in H as (level & _ & ->).
    by apply keys_distinct_step, IH.
Qed.

Lemma nearest_lower_unique (ts : list tag) (n level p p' : nat) :
  nearest_lower ts n level p → nearest_lower ts n level p' → p = p'.
Proof.
  intros (Hp & (lp & Hlp & Hlt) & Hb) (Hp' & (lp' & Hlp' & Hlt') & Hb').
  destruct (Nat.lt_trichotomy p p') as [H|[H|H]]; [|done|].
  - specialize (Hb p' lp' ltac:(lia) Hlp'). lia.
  - specialize (Hb' p lp ltac:(lia) Hlp). lia.
Qed.

Lemma nearest_lower_not_none (ts : list tag) (n level p : nat) :
  nearest_lower ts n level p → ¬ none_lower ts n level.
Proof.
  intros (Hp & (lp & Hlp & Hlt) & _) Hnone.
  specialize (Hnone p lp Hp Hlp). lia.
Qed.

Lemma nearest_lower_unapp (ts : list tag) (t : tag) (n level p : nat) :
  n ≤ length ts →
  nearest_lower (ts ++ [t]) n level p → nearest_lower ts n level p.
Proof.
  intros Hn (Hp & (lp & Hlp & Hlt) & Hbetween). split; [done|]. split.
  - exists lp. by rewrite level_of_app_l in Hlp by lia.
  - intros k lk Hk Hlk. apply (Hbetween k); [done|].
    by rewrite level_of_app_l by lia.
Qed.

Lemma none_lower_unapp (ts : list tag) (t : tag) (n level : nat) :
  n ≤ length ts → none_lower (ts ++ [t]) n level → none_lower ts n level.
Proof.
  intros Hn H k lk Hk Hlk. apply (H k); [done|].
  by rewrite level_of_app_l by lia.
Qed.

(** The statement about superseded headings, for the state reached after
    the headings [ts]. *)
Lemma scan_superseded (ts : list tag) :
  ∀ st, scan init ts = Some st →
  ∀ i j ti tj li lj,
    i < j →
    ts !! i = Some ti → ts !! j = Some tj →
    tag_title ti = tag_title tj →
    tag_level ti = Some li → tag_level tj = Some lj →
    (∀ p o d, nearest_lower ts i li p → nearest_lower ts j lj p →
              store st !! p = Some o → sections o = Some d →
              (tag_title ti, i) ∉ d)
    ∧ (none_lower ts i li → none_lower ts j lj →
       (tag_title ti, i) ∉ root st).
Proof.
  induction ts as [|t ts IH] using rev_ind;
    intros st H i j ti tj li lj Hij Hi Hj Htitle Hli Hlj; [done|].
  rewrite scan_snoc in H.
  destruct (scan init ts) as [st0|] eqn:E; simpl in H; [|done].
  apply step_Some in H as (level & Ht & ->).
  destruct (scan_stack_tracks ts st0 E) as [Hlen Htr].
  destruct (scan_keys_distinct ts st0 E) as [Hksec Hkroot].
  specialize (Htr level).
  pose proof (lookup_lt_Some _ _ _ Hj) as Hjn.
  rewrite length_app in Hjn. simpl in Hjn.
  rewrite lookup_app_l in Hi by lia.
  destruct (decide (j = length ts)) as [->|Hjlt].
  - (* the new heading supersedes heading [i] *)
    rewrite lookup_app_r, Nat.sub_diag in Hj by lia.
    injection Hj as <-. rewrite Ht in Hlj. injection Hlj as <-.
    rewrite Htitle. unfold add_section. rewrite <- Hlen in *.
    destruct (pop_while level (stack st0)) as [|[q lq] stk]; simpl.
    + split.
      * intros p o d _ Hp. apply nearest_lower_unapp in Hp; [|lia].
        by apply nearest_lower_not_none in Hp.
      * intros _ _ Hin.
        apply dict_set_key_unique in Hin; [lia | done].
    + assert (q < length (store st0)) as Hq by (destruct Htr; lia).
      destruct (lookup_lt_is_Some_2 (store st0) q Hq) as [parent Hparent].
      rewrite lookup_app_l by done. rewrite Hparent. simpl. split.
      * intros p o d _ Hp Hpo Hd Hin.
        apply nearest_lower_unapp in Hp; [|lia].
        pose proof (nearest_lower_unique _ _ _ _ _ Hp Htr) as ->.
        rewrite list_lookup_insert_eq in Hpo
          by (rewrite length_app; simpl; lia).
        injection Hpo as <-. simpl in Hd. injection Hd as <-.
        apply dict_set_key_unique in Hin; [lia|].
        destruct (sections parent) as [d|] eqn:Ed; simpl;
          [by eapply Hksec | apply NoDup_nil_2].
      * intros _ Hnone. apply none_lower_unapp in Hnone; [|lia].
        by apply nearest_lower_not_none in Htr.
  - (* both headings are old: nothing brings entry [i] back *)
    rewrite lookup_app_l in Hj by lia.
    destruct (IH st0 eq_refl i j ti tj li lj Hij Hi Hj Htitle Hli Hlj)
      as [IHsec IHroot].
    assert (∀ p o d,
              nearest_lower ts i li p → nearest_lower ts j lj p →
              (store st0
                 ++ [{| contents := tag_contents t; sections := None |}])
                !! p = Some o →
              sections o = Some d → (tag_title ti, i) ∉ d) as Hsec1.
    { intros p o d Hpi Hpj Hp Hd.
      destruct (decide (p < length (store st0))) as [Hlt|Hge].
      - rewrite lookup_app_l in Hp by done. by eapply IHsec.
      - rewrite lookup_app_r in Hp by lia.
        destruct (p - length (store st0)); simplify_eq/=. }
    unfold add_section.
    destruct (pop_while level (stack st0)) as [|[q lq] stk]; simpl.
    + split.
      * intros p o d Hpi Hpj. apply nearest_lower_unapp in Hpi; [|lia].
        apply nearest_lower_unapp in Hpj; [|lia]. by apply Hsec1.
      * intros Hni Hnj Hin. apply none_lower_unapp in Hni; [|lia].
        apply none_lower_unapp in Hnj; [|lia].
        apply dict_set_elem_of in Hin as [Hin|Hin].
        -- injection Hin as _ Hin. lia.
        -- by apply IHroot.
    + destruct (_ !! q) as [parent|] eqn:Eparent; simpl.
      * split.
        -- intros p o d Hpi Hpj Hpo Hd Hin.
           apply nearest_lower_unapp in Hpi; [|lia].
           apply nearest_lower_unapp in Hpj; [|lia].
           destruct (decide (p = q)) as [->|Hne].
           ++ rewrite list_lookup_insert_eq in Hpo
                by (by eapply lookup_lt_Some).
              injection Hpo as <-. simpl in Hd. injection Hd as <-.
              apply dict_set_elem_of in Hin as [Hin|Hin].
              ** injection Hin as _ Hin. lia.
              ** destruct (sections parent) as [d|] eqn:Ed; simpl in Hin.
                 --- by eapply (Hsec1 q parent d).
                 --- by apply elem_of_nil in Hin.
           ++ rewrite list_lookup_insert_ne in Hpo by done.
              by eapply (Hsec1 p o d).
        -- intros Hni Hnj. apply none_lower_unapp in Hni; [|lia].
           apply none_lower_unapp in Hnj; [|lia]. by apply IHroot.
      * split.
        -- intros p o d Hpi Hpj. apply nearest_lower_unapp in Hpi; [|lia].
           apply nearest_lower_unapp in Hpj; [|lia]. by apply Hsec1.
        -- intros Hni Hnj. apply none_lower_unapp in Hni; [|lia].
           apply none_lower_unapp in Hnj; [|lia]. by apply IHroot.
Qed.

(** Headings with the same title overwrite each other: of two headings
    with equal titles that belong under the same section (or both at the
    root), the finished hierarchy does not list the earlier one; its entry
    was replaced by the later heading. *)
Theorem X_same_title_overwrites
    (soup : list node) (st : Hierarchy.state)
    (i j : nat) (ti tj : tag) (li lj : nat) :
  scan init (find_all soup) = Some st →
  i < j →
  find_all soup !! i = Some ti → find_all soup !! j = Some tj →
  tag_title ti = tag_title tj →
  tag_level ti = Some li → tag_level tj = Some lj →
  (∀ p o d,
     nearest_lower (find_all soup) i li p →
     nearest_lower (find_all soup) j lj p →
     store st !! p = Some o → sections o = Some d →
     (tag_title ti, i) ∉ d)
  ∧ (none_lower (find_all soup) i li → none_lower (find_all soup) j lj →
     (tag_title ti, i) ∉ root st).
Proof. intros H. by apply scan_superseded. Qed.

Lemma X_same_title_witness :
  (∀ p o d,
     nearest_lower (find_all [heading "1" "Intro"; heading "1" "Intro"]) 0 1 p →
     nearest_lower (find_all [heading "1" "Intro"; heading "1" "Intro"]) 1 1 p →
     store (add_section 1 "Intro" "<h1>Intro</h1>"
              (add_section 1 "Intro" "<h1>Intro</h1>" init)) !! p = Some o →
     sections o = Some d →
     (tag_title {| tag_node := heading "1" "Intro";
                   next_siblings := [heading "1" "Intro"] |}, 0) ∉ d)
  ∧ (none_lower (find_all [heading "1" "Intro"; heading "1" "Intro"]) 0 1 →
     none_lower (find_all [heading "1" "Intro"; heading "1" "Intro"]) 1 1 →
     (tag_title {| tag_node := heading "1" "Intro";
                   next_siblings := [heading "1" "Intro"] |}, 0)
     ∉ root (add_section 1 "Intro" "<h1>Intro</h1>"
               (add_section 1 "Intro" "<h1>Intro</h1>" init))).
Proof.
  apply (X_same_title_overwrites [heading "1" "Intro"; heading "1" "Intro"]
           (add_section 1 "Intro" "<h1>Intro</h1>"
              (add_section 1 "Intro" "<h1>Intro</h1>" init))
           0 1
           {| tag_node := heading "1" "Intro";
              next_siblings := [heading "1" "Intro"] |}
           {| tag_node := heading "1" "Intro"; next_siblings := [] |}
           1 1);
    first [reflexivity | lia].
Defined.

(** * Markdown cells over full strings *)

Import SpecU.

Lemma linebreak_is_space (c : N) :
  U.is_linebreak c = true → U.is_space c = true.
Proof.
  unfold U.is_linebreak, U.is_space.
  rewrite !orb_true_iff, !andb_true_iff, !N.leb_le, !N.eqb_eq. lia.
Qed.

Lemma blank_nil : blank [].
Proof. constructor. Qed.

#[local] Hint Resolve blank_nil : core.

Lemma blank_app (a b : U.str) : blank a → blank b → blank (a ++ b).
Proof. apply Forall_app_2. Qed.

Lemma lstrip_app_blank (sp s : U.str) :
  blank sp → U.lstrip (sp ++ s) = U.lstrip s.
Proof.
  induction 1 as [|c sp Hc Hsp IH]; [done|]. simpl. by rewrite Hc.
Qed.

Lemma lstrip_decompose (s : U.str) :
  ∃ sp, s = sp ++ U.lstrip s ∧ blank sp.
Proof.
  induction s as [|c s (sp & Hs & Hsp)];
    [exists []; split; [done | constructor]|].
  simpl. destruct (U.is_space c) eqn:Hc.
  - exists (c :: sp). split; [by rewrite <- app_comm_cons, <- Hs|].
    by constructor.
  - exists []. split; [done | constructor].
Qed.

Lemma rstrip_nil (s : U.str) : U.rstrip s = [] ↔ blank s.
Proof.
  induction s as [|c s IH]; [split; [constructor | done]|].
  cbn [U.rstrip]. split.
  - destruct (U.is_space c) eqn:Hc; [|done].
    destruct (U.rstrip s) eqn:Hr; [|done].
    intros _. constructor; [done | by apply IH].
  - intros [Hc Hs]%Forall_cons. apply IH in Hs. by rewrite Hc, Hs.
Qed.

Lemma rstrip_decompose (s : U.str) :
  ∃ sp, s = U.rstrip s ++ sp ∧ blank sp.
Proof.
  induction s as [|c s (sp & Hs & Hsp)];
    [exists []; split; [done | constructor]|].
  cbn [U.rstrip].
  destruct (U.is_space c && negb (U.truthy (U.rstrip s))) eqn:E.
  - apply andb_true_iff in E as [Hc Hr].
    exists (c :: s). split; [done|]. constructor; [done|].
    apply rstrip_nil. by destruct (U.rstrip s).
  - exists sp. split; [|done]. by rewrite <- app_comm_cons, <- Hs.
Qed.

Lemma strip_nil (s : U.str) : U.truthy (U.strip s) = false ↔ blank s.
Proof.
  unfold U.strip. destruct (lstrip_decompose s) as (sp & Hs & Hsp). split.
  - intros H. rewrite Hs. apply blank_app; [done|].
    apply rstrip_nil. by destruct (U.rstrip (U.lstrip s)).
  - intros H. rewrite Hs in H. apply Forall_app in H as [_ H].
    apply rstrip_nil in H. by rewrite H.
Qed.

Lemma strip_decompose (s : U.str) :
  ∃ sp1 sp2, s = sp1 ++ U.strip s ++ sp2 ∧ blank sp1 ∧ blank sp2.
Proof.
  destruct (lstrip_decompose s) as (sp1 & Hs & Hsp1).
  destruct (rstrip_decompose (U.lstrip s)) as (sp2 & Hl & Hsp2).
  exists sp1, sp2. unfold U.strip. by rewrite <- Hl, <- Hs.
Qed.

Lemma strip_hash (sp y : U.str) :
  blank sp → U.strip (sp ++ U.hash :: y) = U.hash :: U.rstrip y.
Proof.
  intros Hsp. unfold U.strip. by rewrite lstrip_app_blank.
Qed.

(** The lines that count: stripped and not empty. *)
Lemma content_filter_cons (l : U.str) (ls : list U.str) :
  List.filter U.truthy (U.strip <$> l :: ls)
  = (if U.truthy (U.strip l) then [U.strip l] else [])
    ++ List.filter U.truthy (U.strip <$> ls).
Proof. rewrite fmap_cons. simpl. by destruct (U.truthy (U.strip l)). Qed.

Lemma content_filter_blank (l : U.str) (ls : list U.str) :
  blank l →
  List.filter U.truthy (U.strip <$> l :: ls)
  = List.filter U.truthy (U.strip <$> ls).
Proof.
  intros Hl. rewrite content_filter_cons.
  apply strip_nil in Hl. by rewrite Hl.
Qed.

Lemma splitlines_go_line (l : U.str) :
  one_line l →
  ∀ cur r, U.splitlines_go cur (l ++ r) = U.splitlines_go (cur ++ l) r.
Proof.
  induction 1 as [|c l Hc Hl IH]; intros cur r.
  - by rewrite app_nil_r.
  - simpl. rewrite Hc, IH. by rewrite <- app_assoc.
Qed.

Lemma splitlines_go_blank (n : nat) :
  ∀ s cur, length s < n → blank cur → blank s →
    List.filter U.truthy (U.strip <$> U.splitlines_go cur s) = [].
Proof.
  induction n as [|n IH]; intros s cur Hn Hcur Hs; [lia|].
  destruct s as [|c s]; cbn [U.splitlines_go].
  - destruct (U.truthy cur); [|done]. by rewrite content_filter_blank.
  - apply Forall_cons in Hs as [Hc Hs]. simpl in Hn.
    destruct (U.is_linebreak c).
    + rewrite content_filter_blank by done.
      destruct s as [|c' s]; [by apply IH; [simpl; lia| |]|].
      destruct ((c =? 13)%N && (c' =? 10)%N).
      * apply Forall_cons in Hs as [_ Hs].
        apply IH; [simpl in *; lia | done | done].
      * apply IH; [lia | done | done].
    + apply IH; [lia | | done]. apply blank_app; [done | by constructor].
Qed.

Lemma splitlines_go_before (n : nat) (r : U.str) :
  ∀ ws cur, length ws < n → blank cur → blank ws →
    ∃ cur', blank cur'
      ∧ List.filter U.truthy
          (U.strip <$> U.splitlines_go cur (ws ++ U.hash :: r))
        = List.filter U.truthy
            (U.strip <$> U.splitlines_go cur' (U.hash :: r)).
Proof.
  induction n as [|n IH]; intros ws cur Hn Hcur Hws; [lia|].
  destruct ws as [|c ws]; [by exists cur|].
  apply Forall_cons in Hws as [Hc Hws]. simpl in Hn.
  rewrite <- app_comm_cons. cbn [U.splitlines_go].
  destruct (U.is_linebreak c).
  - rewrite content_filter_blank by done.
    destruct ws as [|c' ws].
    + simpl app. replace (c =? 13)%N with (c =? 13)%N by done.
      assert ((U.hash =? 10)%N = false) as -> by done.
      rewrite andb_false_r. by exists [].
    + rewrite <- app_comm_cons.
      destruct ((c =? 13)%N && (c' =? 10)%N).
      * apply Forall_cons in Hws as [_ Hws].
        apply IH; [simpl in *; lia | done | done].
      * rewrite app_comm_cons. apply IH; [lia | done | done].
  - apply IH; [lia | | done]. apply blank_app; [done | by constructor].
Qed.

Lemma splitlines_go_after (ws : U.str) :
  blank ws →
  ∀ cur,
    ∃ sp, blank sp
      ∧ List.filter U.truthy (U.strip <$> U.splitlines_go cur ws)
        = List.filter U.truthy (U.strip <$> [cur ++ sp]).
Proof.
  induction 1 as [|c ws Hc Hws IH]; intros cur.
  - exists []. split; [done|]. rewrite app_nil_r. simpl.
    destruct cur; [done|]. done.
  - cbn [U.splitlines_go]. destruct (U.is_linebreak c).
    + exists []. split; [done|]. rewrite app_nil_r.
      rewrite content_filter_cons.
      assert (List.filter U.truthy
                (U.strip <$>
                   match ws with
                   | [] => U.splitlines_go [] ws
                   | c' :: s'' =>
                       if (c =? 13)%N && (c' =? 10)%N
                       then U.splitlines_go [] s''
                       else U.splitlines_go [] ws
                   end) = []) as ->.
      { destruct ws as [|c' ws];
          [by apply (splitlines_go_blank 1); [simpl; lia| |]|].
        destruct ((c =? 13)%N && (c' =? 10)%N).
        - apply Forall_cons in Hws as [_ Hws].
          by apply (splitlines_go_blank (S (length ws))); [lia| |].
        - by apply (splitlines_go_blank (S (length (c' :: ws)))); [lia| |]. }
      rewrite app_nil_r. rewrite fmap_cons. simpl.
      by destruct (U.truthy (U.strip cur)).
    + destruct (IH (cur ++ [c])) as (sp & Hsp & ->).
      exists (c :: sp). split; [by constructor|].
      by rewrite <- app_assoc.
Qed.

Lemma is_header_of_single_line (mc : U.str) :
  single_heading_line mc → U.is_header mc = true.
Proof.
  intros (before & body & after & -> & Hb & Hl & Ha).
  unfold U.is_header, U.content_lines, U.splitlines.
  destruct (splitlines_go_before (S (length before)) (body ++ after)
              before [] ltac:(lia) ltac:(constructor) Hb)
    as (cur & Hcur & H).
  simpl app in *. rewrite H.
  rewrite (app_comm_cons body after U.hash).
  rewrite splitlines_go_line
    by (constructor; [done | exact Hl]).
  destruct (splitlines_go_after after Ha (cur ++ U.hash :: body))
    as (sp & Hsp & ->).
  rewrite <- !app_assoc, <- app_comm_cons.
  rewrite fmap_cons, strip_hash by done. simpl. done.
Qed.

Lemma splitlines_go_nil (n : nat) :
  ∀ s cur, length s < n →
    List.filter U.truthy (U.strip <$> U.splitlines_go cur s) = [] →
    blank cur ∧ blank s.
Proof.
  induction n as [|n IH]; intros s cur Hn H; [lia|].
  destruct s as [|c s]; cbn [U.splitlines_go] in H.
  - split; [|done]. destruct cur as [|x cur]; [done|].
    cbn [U.truthy] in H. rewrite content_filter_cons in H.
    apply strip_nil. by destruct (U.truthy (U.strip (x :: cur))).
  - simpl in Hn. destruct (U.is_linebreak c) eqn:Hc.
    + rewrite content_filter_cons in H.
      apply app_eq_nil in H as [Hcur H].
      assert (blank cur) as Hb.
      { apply strip_nil. by destruct (U.truthy (U.strip cur)). }
      split; [done|]. apply linebreak_is_space in Hc.
      destruct s as [|c' s]; [by constructor|].
      destruct ((c =? 13)%N && (c' =? 10)%N) eqn:E.
      * apply andb_true_iff in E as [_ ->%N.eqb_eq].
        apply IH in H as [_ H]; [|simpl in *; lia].
        constructor; [done|]. by constructor.
      * apply IH in H as [_ H]; [|lia]. by constructor.
    + apply IH in H as [H1 H2]; [|lia].
      apply Forall_app in H1 as [H1 [Hx _]%Forall_cons].
      split; [done | by constructor].
Qed.

Lemma splitlines_go_single (n : nat) :
  ∀ s cur l, length s < n → one_line cur →
    List.filter U.truthy (U.strip <$> U.splitlines_go cur s) = [l] →
    ∃ a body b,
      cur ++ s = a ++ body ++ b
      ∧ blank a ∧ one_line body ∧ blank b ∧ U.strip body = l.
Proof.
  induction n as [|n IH]; intros s cur l Hn Hcur H; [lia|].
  destruct s as [|c s]; cbn [U.splitlines_go] in H.
  - destruct cur as [|x cur]; [done|]. cbn [U.truthy] in H.
    rewrite content_filter_cons in H. simpl in H. rewrite app_nil_r in H.
    destruct (U.truthy (U.strip (x :: cur))); [|done].
    injection H as H. exists [], (x :: cur), [].
    rewrite !app_nil_r. by repeat split.
  - simpl in Hn. destruct (U.is_linebreak c) eqn:Hc.
    + rewrite content_filter_cons in H.
      pose proof (linebreak_is_space c Hc) as Hsp.
      destruct (U.truthy (U.strip cur)) eqn:Ecur.
      * injection H as Hl H.
        assert (blank s) as Hs.
        { destruct s as [|c' s]; [done|].
          destruct ((c =? 13)%N && (c' =? 10)%N) eqn:E.
          - apply andb_true_iff in E as [_ ->%N.eqb_eq].
            apply splitlines_go_nil with (n := n) in H as [_ H];
              [|simpl in *; lia].
            by constructor.
          - by apply splitlines_go_nil with (n := n) in H as [_ H]; [|lia]. }
        exists [], cur, (c :: s). repeat split; try done.
        by constructor.
      * apply strip_nil in Ecur. simpl in H.
        destruct s as [|c' s]; [done|].
        destruct ((c =? 13)%N && (c' =? 10)%N) eqn:E.
        -- apply andb_true_iff in E as [_ ->%N.eqb_eq].
           apply IH in H as (a & body & b & Hs & Ha & Hbody & Hb & Hl);
             [|simpl in *; lia | constructor].
           simpl in Hs. subst s.
           exists (cur ++ c :: 10%N :: a), body, b.
           split; [by rewrite <- !app_assoc|]. repeat split; try done.
           apply blank_app; [done|]. constructor; [done|]. by constructor.
        -- apply IH in H as (a & body & b & Hs & Ha & Hbody & Hb & Hl);
             [|lia | constructor].
           simpl in Hs. rewrite Hs.
           exists (cur ++ c :: a), body, b.
           split; [by rewrite <- !app_assoc|]. repeat split; try done.
           apply blank_app; [done|]. by constructor.
    + apply IH in H as (a & body & b & Hs & Ha & Hbody & Hb & Hl);
        [|lia | apply Forall_app_2; [done | by repeat constructor]].
      exists a, body, b. split; [|done].
      by rewrite <- Hs, <- app_assoc.
Qed.

Lemma startswith_hash (l : U.str) :
  U.startswith (U.of_string "#") l = true → ∃ r, l = U.hash :: r.
Proof.
  destruct l as [|c l]; [done|].
  change (U.startswith (U.of_string "#") (c :: l))
    with ((35 =? c)%N && true).
  rewrite andb_true_r. intros <-%N.eqb_eq. by exists l.
Qed.

Lemma single_line_of_is_header (mc : U.str) :
  U.is_header mc = true → single_heading_line mc.
Proof.
  unfold U.is_header, U.content_lines, U.splitlines.
  destruct (List.filter _ _) as [|l [|l' ls]] eqn:E; try done.
  intros (r & ->)%startswith_hash.
  apply splitlines_go_single with (n := S (length mc)) in E
    as (a & body & b & Hs & Ha & Hbody & Hb & Hl); [|lia | constructor].
  simpl in Hs. subst mc.
  destruct (strip_decompose body) as (sp1 & sp2 & Hbd & Hsp1 & Hsp2).
  rewrite Hl in Hbd.
  exists (a ++ sp1), (r ++ sp2), b. split; [|split; [|split]].
  - rewrite Hbd. by rewrite <- !app_assoc.
  - by apply blank_app.
  - rewrite Hbd in Hbody. apply Forall_app in Hbody as [_ Hbody].
    by apply Forall_cons in Hbody as [_ Hbody].
  - done.
Qed.

(** The test of line 211 says what its comment says. *)
Lemma is_header_single_line (mc : U.str) :
  U.is_header mc = true ↔ single_heading_line mc.
Proof.
  split; [apply single_line_of_is_header | apply is_header_of_single_line].
Qed.

Lemma count_hash_spec (s : U.str) :
  U.count (U.of_string "#") s = count_hash s.
Proof.
  unfold U.count, count_hash. induction s as [|c s IH]; [done|].
  cbn [U.count_go].
  change (U.startswith (U.of_string "#") (c :: s))
    with ((35 =? c)%N && true).
  change (length (U.of_string "#") - 1) with 0.
  rewrite andb_true_r.
  rewrite filter_cons. unfold U.hash in *.
  destruct (N.eqb_spec 35 c) as [<-|Hne].
  - rewrite decide_True by done. simpl. by rewrite IH.
  - rewrite decide_False by done. by rewrite IH.
Qed.

Lemma decimal_value_str_of_nat (n : nat) :
  decimal_value (Py.str_of_nat n) = Some n.
Proof.
  unfold decimal_value, Py.str_of_nat.
  rewrite NilEmpty.usu. simpl. by rewrite DecimalNat.Unsigned.of_to.
Qed.

(** ** The renderer's strings are the full strings of code points below 256 *)

Lemma of_string_cons (c : ascii) (s : string) :
  U.of_string (String c s) = N_of_ascii c :: U.of_string s.
Proof. reflexivity. Qed.

Lemma of_string_app (a b : string) :
  U.of_string (a +:+ b) = U.of_string a ++ U.of_string b.
Proof.
  induction a as [|c a IH]; [done|].
  rewrite app_cons_str, !of_string_cons, IH. done.
Qed.

Lemma N_of_ascii_eqb (a b : ascii) :
  (N_of_ascii a =? N_of_ascii b)%N = Ascii.eqb a b.
Proof.
  destruct (Ascii.eqb_spec a b) as [->|Hne]; [apply N.eqb_refl|].
  apply N.eqb_neq. intros H. apply Hne.
  by rewrite <- (ascii_N_embedding a), <- (ascii_N_embedding b), H.
Qed.

Lemma is_space_agrees (c : ascii) : U.is_space (N_of_ascii c) = Py.is_space c.
Proof. destruct c as [[] [] [] [] [] [] [] []]; vm_compute; reflexivity. Qed.

Lemma is_linebreak_agrees (c : ascii) :
  U.is_linebreak (N_of_ascii c) = Py.is_linebreak c.
Proof. destruct c as [[] [] [] [] [] [] [] []]; vm_compute; reflexivity. Qed.

Lemma escape_char_agrees (c : ascii) :
  U.escape_char (N_of_ascii c) = U.of_string (Py.escape_char c).
Proof. destruct c as [[] [] [] [] [] [] [] []]; vm_compute; reflexivity. Qed.

Lemma html_escape_agrees (s : string) :
  U.html_escape (U.of_string s) = U.of_string (Py.html_escape s).
Proof.
  induction s as [|c s IH]; [done|].
  rewrite of_string_cons. simpl.
  by rewrite of_string_app, IH, escape_char_agrees.
Qed.

Lemma truthy_agrees (s : string) : U.truthy (U.of_string s) = Py.truthy s.
Proof. by destruct s. Qed.

Lemma splitlines_go_agrees (n : nat) :
  ∀ s cur, String.length s < n →
    U.splitlines_go (U.of_string cur) (U.of_string s)
    = U.of_string <$> Py.splitlines_go cur s.
Proof.
  induction n as [|n IH]; intros s cur Hn; [lia|].
  destruct s as [|c s].
  - simpl. rewrite truthy_agrees. by destruct (Py.truthy cur).
  - rewrite of_string_cons. cbn [U.splitlines_go Py.splitlines_go].
    rewrite is_linebreak_agrees. simpl in Hn.
    destruct (Py.is_linebreak c).
    + rewrite fmap_cons. f_equal. destruct s as [|c' s].
      * apply (IH "" ""). simpl. lia.
      * rewrite of_string_cons.
        change 13%N with (N_of_ascii "013"). change 10%N with (N_of_ascii "010").
        rewrite !N_of_ascii_eqb.
        destruct (Ascii.eqb c "013" && Ascii.eqb c' "010").
        -- apply (IH s ""). simpl in *. lia.
        -- rewrite <- of_string_cons. apply (IH (String c' s) ""). lia.
    + rewrite <- (IH s (cur +:+ String c "")) by lia.
      by rewrite of_string_app.
Qed.

Lemma lstrip_agrees (s : string) :
  U.lstrip (U.of_string s) = U.of_string (Py.lstrip s).
Proof.
  induction s as [|c s IH]; [done|].
  rewrite of_string_cons. simpl. rewrite is_space_agrees.
  by destruct (Py.is_space c).
Qed.

Lemma rstrip_agrees (s : string) :
  U.rstrip (U.of_string s) = U.of_string (Py.rstrip s).
Proof.
  induction s as [|c s IH]; [done|].
  rewrite of_string_cons. cbn [U.rstrip Py.rstrip].
  rewrite IH, is_space_agrees, truthy_agrees.
  by destruct (Py.is_space c && negb (Py.truthy (Py.rstrip s))).
Qed.

Lemma strip_agrees (s : string) :
  U.strip (U.of_string s) = U.of_string (Py.strip s).
Proof. unfold U.strip, Py.strip. by rewrite lstrip_agrees, rstrip_agrees. Qed.

Lemma content_lines_agrees (mc : string) :
  U.content_lines (U.of_string mc)
  = U.of_string <$> Renderer.content_lines mc.
Proof.
  unfold U.content_lines, Renderer.content_lines, U.splitlines, Py.splitlines.
  change (U.splitlines_go [] (U.of_string mc))
    with (U.splitlines_go (U.of_string "") (U.of_string mc)).
  rewrite (splitlines_go_agrees (S (String.length mc)) mc "") by lia.
  induction (Py.splitlines_go "" mc) as [|l ls IH]; [done|].
  rewrite !fmap_cons. simpl.
  rewrite strip_agrees, truthy_agrees.
  destruct (Py.truthy (Py.strip l)); [rewrite fmap_cons|];
    by rewrite IH.
Qed.

Lemma startswith_agrees (p s : string) :
  U.startswith (U.of_string p) (U.of_string s) = Py.startswith p s.
Proof.
  revert s. induction p as [|a p IH]; intros s; [done|].
  destruct s as [|b s]; [done|].
  rewrite !of_string_cons. simpl. by rewrite N_of_ascii_eqb, IH.
Qed.

Lemma is_header_agrees (mc : string) :
  U.is_header (U.of_string mc) = Renderer.is_header mc.
Proof.
  unfold U.is_header, Renderer.is_header. rewrite content_lines_agrees.
  destruct (Renderer.content_lines mc) as [|l [|l' ls]]; try done.
  apply (startswith_agrees "#" l).
Qed.

Lemma of_string_length (s : string) :
  length (U.of_string s) = String.length s.
Proof.
  induction s as [|c s IH]; [done|]. rewrite of_string_cons. simpl.
  by rewrite IH.
Qed.

Lemma count_go_agrees (sub s : string) :
  ∀ k, U.count_go (U.of_string sub) k (U.of_string s) = Py.count_go sub k s.
Proof.
  induction s as [|c s IH]; intros k; [done|].
  rewrite of_string_cons. cbn [U.count_go Py.count_go].
  destruct k; [|apply IH].
  rewrite <- of_string_cons, startswith_agrees, of_string_length, !IH.
  done.
Qed.

Lemma split_go_agrees (sep s : string) :
  ∀ k cur,
    U.split_go (U.of_string sep) k (U.of_string cur) (U.of_string s)
    = U.of_string <$> Py.split_go sep k cur s.
Proof.
  induction s as [|c s IH]; intros k cur; [done|].
  rewrite of_string_cons. cbn [U.split_go Py.split_go].
  destruct k; [|apply IH].
  rewrite <- of_string_cons, startswith_agrees, of_string_length.
  destruct (Py.startswith sep (String c s)).
  - rewrite fmap_cons. f_equal. apply (IH _ "").
  - rewrite <- (IH 0 (cur +:+ String c "")). by rewrite of_string_app.
Qed.

Lemma last_item_agrees (l : list string) :
  U.last_item (U.of_string <$> l) = U.of_string (Py.last_item l).
Proof.
  unfold U.last_item, Py.last_item.
  induction l as [|x [|y l] IH]; [done | done |].
  rewrite !fmap_cons in *. exact IH.
Qed.

(** The fragment of a markdown cell in the renderer is the fragment of the
    full model on the same text. *)
Lemma markdown_fragment_agrees (src : string) (st : Renderer.state) :
  ∃ frag,
    process_markdown src st = emit frag st
    ∧ U.of_string frag = U.markdown_fragment (U.of_string src).
Proof.
  unfold process_markdown, U.markdown_fragment.
  rewrite html_escape_agrees, is_header_agrees.
  destruct (Renderer.is_header (Py.html_escape src)).
  - eexists. split; [reflexivity|].
    unfold heading_block, U.count, U.split, Py.count, Py.split.
    rewrite (count_go_agrees "#"), (split_go_agrees "# " _ 0 ""),
      last_item_agrees.
    by rewrite !of_string_app.
  - eexists. split; [reflexivity|].
    unfold markdown_block. by rewrite !of_string_app.
Qed.

(** C5: a markdown cell whose escaped source, once its blank lines are
    removed, is a single line that starts with "#" (the source is blank up
    to a "#", stays within that line, and is blank behind it) is rendered as
    the block [<div class='markdown-cell'>] around the element [<hN>] ...
    [</hN>], where [N] is the decimal numeral of the number of "#"
    characters in the whole escaped source; every other markdown cell is
    rendered as the block around the escaped source.  This holds for
    sources of arbitrary code points, and the renderer's markdown branch
    computes this fragment. *)
Theorem C5_markdown_heading_level
    (source : U.str) (input_dir filename : string) (use_base64 : bool)
    (st : Renderer.state) (c : cell) :
  let mc := U.html_escape source in
  let level := Py.str_of_nat (count_hash mc) in
  (single_heading_line mc →
   U.markdown_fragment source
   = U.of_string "<div class='markdown-cell'>"
     ++ [10; 9]%N ++ U.of_string "<h" ++ U.of_string level
     ++ U.of_string ">"
     ++ [10; 9; 9]%N ++ U.last_item (U.split (U.of_string "# ") mc)
     ++ [10; 9]%N ++ U.of_string "</h" ++ U.of_string level
     ++ U.of_string ">"
     ++ [10]%N ++ U.of_string "</div>")
  ∧ (¬ single_heading_line mc →
     U.markdown_fragment source
     = U.of_string "<div class='markdown-cell'>"
       ++ [10; 9]%N ++ mc ++ [10]%N ++ U.of_string "</div>")
  ∧ decimal_value level = Some (count_hash mc)
  ∧ (cell_type c = "markdown" →
     ∃ frag,
       process_cell input_dir filename use_base64 st c = emit frag st
       ∧ U.of_string frag = U.markdown_fragment (U.of_string (Renderer.source c))).
Proof.
  intros mc level. split; [|split; [|split]].
  - intros H. apply is_header_single_line in H.
    unfold U.markdown_fragment. fold mc. rewrite H.
    by rewrite count_hash_spec.
  - intros H. unfold U.markdown_fragment. fold mc.
    destruct (U.is_header mc) eqn:E; [|done].
    by apply is_header_single_line in E.
  - apply decimal_value_str_of_nat.
  - intros Hty. unfold process_cell. rewrite Hty.
    rewrite bool_decide_eq_false_2 by done.
    rewrite bool_decide_eq_true_2 by done.
    apply markdown_fragment_agrees.
Qed.

Lemma C5_witness :
  U.markdown_fragment ([12288%N] ++ U.of_string "## it's" ++ [8232%N])
  = U.of_string "<div class='markdown-cell'>"
    ++ [10; 9]%N ++ U.of_string "<h3>"
    ++ [10; 9; 9]%N ++ U.of_string "it&#x27;s" ++ [8232%N]
    ++ [10; 9]%N ++ U.of_string "</h3>"
    ++ [10]%N ++ U.of_string "</div>"
  ∧ U.markdown_fragment (U.of_string "a" ++ [10%N] ++ U.of_string "# b")
    = U.of_string "<div class='markdown-cell'>"
      ++ [10; 9]%N ++ U.of_string "a" ++ [10%N] ++ U.of_string "# b"
      ++ [10]%N ++ U.of_string "</div>"
  ∧ ∃ frag,
      process_cell "dir" "nb.ipynb" false (Renderer.init empty_fs)
        (markdown_cell "## it's")
      = emit frag (Renderer.init empty_fs)
      ∧ U.of_string frag = U.markdown_fragment (U.of_string "## it's").
Proof.
  split; [|split].
  - etrans;
      [apply (proj1 (C5_markdown_heading_level
                       ([12288%N] ++ U.of_string "## it's" ++ [8232%N])
                       "dir" "nb.ipynb" false (Renderer.init empty_fs)
                       (markdown_cell "")))
      | vm_compute; reflexivity].
    exists [12288%N], (U.of_string "# it&#x27;s"), [8232%N].
    split; [vm_compute; reflexivity|].
    split; [repeat constructor|]. split; repeat constructor.
  - etrans;
      [apply (proj1 (proj2 (C5_markdown_heading_level
                              (U.of_string "a" ++ [10%N] ++ U.of_string "# b")
                              "dir" "nb.ipynb" false (Renderer.init empty_fs)
                              (markdown_cell ""))))
      | vm_compute; reflexivity].
    intros H. apply is_header_single_line in H. vm_compute in H.
    discriminate H.
  - apply (proj2 (proj2 (proj2 (C5_markdown_heading_level []
                                  "dir" "nb.ipynb" false
                                  (Renderer.init empty_fs)
                                  (markdown_cell "## it's"))))).
    reflexivity.
Defined.
